(** * passport-dropbox-oauth2: the Dropbox OAuth 2.0 strategy

    A shallow embedding of [lib/passport-dropbox-oauth2/strategy.js] and the
    properties of its constructor (the configuration resolver) and of
    [userProfile] (the profile fetcher and normalizer).

    The file has three layers:
    - the JavaScript values the strategy touches (option-bag values, JSON
      payloads, exceptions) and the built-ins it calls ([toString],
      [JSON.parse], property reads);
    - the strategy itself, written in a small state-and-exception monad over a
      world made of the object heap, the network and the trace of calls that
      cross the strategy's boundary;
    - the theorems. *)

From stdpp Require Import gmap strings list.
From Stdlib Require Import ZArith Ascii String DecimalString.

#[local] Set Warnings "-register-all".
#[local] Open Scope string_scope.
#[local] Open Scope list_scope.

(** ** Strings

    A JavaScript string is written as a Rocq [string]; every string the
    strategy itself mentions is ASCII.  The double-quote character is named,
    and [dq] turns apostrophes into double quotes so that JSON texts can be
    written legibly. *)

Definition dquote : ascii := "034"%char.

Definition dq (s : string) : string :=
  string_of_list_ascii
    (map (λ c, if Ascii.eqb c "'" then dquote else c) (list_ascii_of_string s)).

(** ** Values of an options bag

    [VNum n] is the number with integer value [n] (a safe integer, rendered in
    decimal by [Number.prototype.toString]); [VNaN] is the other falsy number
    that is not zero.  Non-integral numbers are truthy and never render as
    ["1"] or ["2"]; they are not represented. Objects are plain data objects:
    no property of theirs is a function. *)

Inductive value : Type :=
| VUndef
| VNull
| VBool (b : bool)
| VNum (n : Z)
| VNaN
| VStr (s : string)
| VArr (xs : list value)
| VObj (fields : gmap string value).

(** ** Exceptions *)

Inductive exn : Type :=
| Error (message : string)                             (* new Error(message) *)
| TypeError                                            (* raised by the runtime *)
| SyntaxError                                          (* raised by JSON.parse *)
| InternalOAuthError (message : string) (oauthError : value).

Inductive result (A : Type) : Type :=
| Ok (a : A)
| Throw (e : exn).
Arguments Ok {A} a.
Arguments Throw {A} e.

#[global] Instance result_ret : MRet result := λ A a, Ok a.
#[global] Instance result_bind : MBind result := λ A B f r,
  match r with Ok a => f a | Throw e => Throw e end.

(** ** Coercions of the language *)

(** ToBoolean. *)
Definition truthy (v : value) : bool :=
  match v with
  | VUndef | VNull | VNaN => false
  | VBool b => b
  | VNum n => negb (n =? 0)%Z
  | VStr s => negb (String.eqb s "")
  | VArr _ | VObj _ => true
  end.

(** [a || b], with [b] evaluated only when [a] is falsy. *)
Definition or_else {M : Type → Type} `{MRet M} (a : value) (b : M value) : M value :=
  if truthy a then mret a else b.

(** [v != null]. *)
Definition not_nullish (v : value) : bool :=
  match v with VUndef | VNull => false | _ => true end.

(** [v === s] for a string literal [s]. *)
Definition strict_eq_str (v : value) (s : string) : bool :=
  match v with VStr t => String.eqb t s | _ => false end.

Definition number_to_string (n : Z) : string :=
  NilZero.string_of_int (Z.to_int n).

Definition join (sep : string) (parts : list string) : string :=
  String.concat sep parts.

(** ToString.  An array is joined with commas, its [undefined] and [null]
    elements rendered empty.  A plain object renders as [[object Object]]
    unless it has an own [toString] property, which (not being callable)
    makes the conversion throw. *)
Fixpoint ToString (v : value) : result string :=
  match v with
  | VUndef => Ok "undefined"
  | VNull => Ok "null"
  | VBool true => Ok "true"
  | VBool false => Ok "false"
  | VNum n => Ok (number_to_string n)
  | VNaN => Ok "NaN"
  | VStr s => Ok s
  | VArr xs =>
      parts ← (fix each (xs : list value) : result (list string) :=
                 match xs with
                 | [] => Ok []
                 | x :: xs' =>
                     s ← match x with VUndef | VNull => Ok "" | _ => ToString x end;
                     ss ← each xs';
                     Ok (s :: ss)
                 end) xs;
      Ok (join "," parts)
  | VObj fields =>
      match fields !! "toString" with
      | Some _ => Throw TypeError
      | None => Ok "[object Object]"
      end
  end.

(** The method call [v.toString()]. *)
Definition toString (v : value) : result string :=
  match v with
  | VUndef | VNull => Throw TypeError
  | _ => ToString v
  end.

(** [xs.indexOf(s) === -1] on an array of strings. *)
Definition indexOf_is_minus1 (xs : list string) (s : string) : bool :=
  negb (existsb (String.eqb s) xs).

(** ** JSON payloads

    The result of [JSON.parse].  A number is kept as the token that denotes
    it: the strategy never looks inside a number of the payload. *)

Inductive json : Type :=
| JNull
| JBool (b : bool)
| JNum (token : string)
| JStr (s : string)
| JArr (xs : list json)
| JObj (members : gmap string json).

(** A property read [v.k] where [v] came out of a payload ([None] is
    [undefined]).  Reading from [undefined] or [null] throws; reading a key
    that is not an own property yields [undefined].  This is used for the
    eight keys of the two account schemas, none of which is defined on a
    built-in prototype. *)
Definition prop (v : option json) (k : string) : result (option json) :=
  match v with
  | None | Some JNull => Throw TypeError
  | Some (JObj members) => Ok (members !! k)
  | Some _ => Ok None
  end.

(** What a read of [k] finds in a payload value that is not [null]: the own
    property of an object, and [undefined] in every other value. *)
Definition member (j : json) (k : string) : option json :=
  match j with
  | JObj members => members !! k
  | _ => None
  end.

(** ** JSON.parse

    A recursive-descent reading of the JSON grammar of ECMA-262 (24.5.1):
    whitespace is tab, line feed, carriage return and space; strings may not
    hold raw control characters and know the escapes of the quote, the
    backslash, the slash, [b], [f], [n], [r], [t] and [uXXXX]; a number is an
    optional minus sign, then either a single zero or a nonzero digit with
    further digits, then optionally a point with one digit or more, then
    optionally [e] or [E] with an optional sign and one digit or more; a
    repeated key keeps its last value.  The text is the UTF-8 encoding of the JavaScript
    string, so a [uXXXX] escape contributes the UTF-8 bytes of its code point
    (an escaped surrogate pair those of the pair's code point). *)

Inductive parsed (A : Type) : Type :=
| Parsed (a : A) (rest : list ascii)
| Malformed
| Exhausted.
Arguments Parsed {A} a rest.
Arguments Malformed {A}.
Arguments Exhausted {A}.

Definition parsed_map {A B} (f : A → B) (p : parsed A) : parsed B :=
  match p with
  | Parsed a rest => Parsed (f a) rest
  | Malformed => Malformed
  | Exhausted => Exhausted
  end.

Definition is_ws (c : ascii) : bool :=
  Ascii.eqb c "009" || Ascii.eqb c "010" || Ascii.eqb c "013" || Ascii.eqb c " ".

Fixpoint skip_ws (l : list ascii) : list ascii :=
  match l with
  | c :: r => if is_ws c then skip_ws r else l
  | [] => []
  end.

Definition is_digit (c : ascii) : bool :=
  (48 <=? N_of_ascii c)%N && (N_of_ascii c <=? 57)%N.

Definition hex_digit (c : ascii) : option N :=
  let n := N_of_ascii c in
  if (48 <=? n)%N && (n <=? 57)%N then Some (n - 48)%N
  else if (65 <=? n)%N && (n <=? 70)%N then Some (n - 55)%N
  else if (97 <=? n)%N && (n <=? 102)%N then Some (n - 87)%N
  else None.

Definition hex4 (a b c d : ascii) : option N :=
  x ← hex_digit a; y ← hex_digit b; z ← hex_digit c; w ← hex_digit d;
  Some (((x * 16 + y) * 16 + z) * 16 + w)%N.

(** The character an escape other than [u] stands for. *)
Definition simple_escape (c : ascii) : option ascii :=
  if Ascii.eqb c dquote then Some dquote
  else if Ascii.eqb c "\" then Some "\"%char
  else if Ascii.eqb c "/" then Some "/"%char
  else if Ascii.eqb c "b" then Some "008"%char
  else if Ascii.eqb c "f" then Some "012"%char
  else if Ascii.eqb c "n" then Some "010"%char
  else if Ascii.eqb c "r" then Some "013"%char
  else if Ascii.eqb c "t" then Some "009"%char
  else None.

(** The characters of a string literal: bytes taken as they are, and the code
    units written as [uXXXX] escapes. *)
Inductive schar : Type :=
| Raw (b : ascii)
| Esc (unit : N).

Definition byte (n : N) : ascii := ascii_of_N (n mod 256).

Definition utf8 (cp : N) : list ascii :=
  if (cp <? 128)%N then [byte cp]
  else if (cp <? 2048)%N then
    [byte (192 + cp / 64); byte (128 + cp mod 64)]
  else if (cp <? 65536)%N then
    [byte (224 + cp / 4096); byte (128 + (cp / 64) mod 64); byte (128 + cp mod 64)]
  else
    [byte (240 + cp / 262144); byte (128 + (cp / 4096) mod 64);
     byte (128 + (cp / 64) mod 64); byte (128 + cp mod 64)].

Definition is_high_surrogate (u : N) : bool := (55296 <=? u)%N && (u <? 56320)%N.
Definition is_low_surrogate (u : N) : bool := (56320 <=? u)%N && (u <? 57344)%N.

Fixpoint encode (cs : list schar) : list ascii :=
  match cs with
  | [] => []
  | Raw b :: r => b :: encode r
  | Esc u :: r =>
      match r with
      | Esc v :: r' =>
          if is_high_surrogate u && is_low_surrogate v
          then utf8 (65536 + (u - 55296) * 1024 + (v - 56320))%N ++ encode r'
          else utf8 u ++ encode r
      | _ => utf8 u ++ encode r
      end
  end.

Definition parsed_cons {A} (a : A) (p : parsed (list A)) : parsed (list A) :=
  parsed_map (cons a) p.

(** The rest of a string literal, after its opening quote. *)
Fixpoint scan_string (l : list ascii) : parsed (list schar) :=
  match l with
  | [] => Malformed
  | c :: r =>
      if Ascii.eqb c dquote then Parsed [] r
      else if Ascii.eqb c "\" then
        match r with
        | [] => Malformed
        | e :: r1 =>
            if Ascii.eqb e "u" then
              match r1 with
              | h1 :: h2 :: h3 :: h4 :: r2 =>
                  match hex4 h1 h2 h3 h4 with
                  | Some u => parsed_cons (Esc u) (scan_string r2)
                  | None => Malformed
                  end
              | _ => Malformed
              end
            else
              match simple_escape e with
              | Some b => parsed_cons (Raw b) (scan_string r1)
              | None => Malformed
              end
        end
      else if (N_of_ascii c <? 32)%N then Malformed
      else parsed_cons (Raw c) (scan_string r)
  end.

Definition parse_string (l : list ascii) : parsed string :=
  parsed_map (λ cs, string_of_list_ascii (encode cs)) (scan_string l).

Fixpoint span_digits (l : list ascii) : list ascii * list ascii :=
  match l with
  | c :: r =>
      if is_digit c then let '(ds, r') := span_digits r in (c :: ds, r')
      else ([], l)
  | [] => ([], [])
  end.

(** An optional part of a number: the [mark] (and [sign], when [signed])
    followed by at least one digit; absent when the digits are. *)
Definition scan_optional (marks : list ascii) (signed : bool) (l : list ascii)
    : list ascii * list ascii :=
  match l with
  | m :: r =>
      if existsb (Ascii.eqb m) marks then
        let '(sg, r1) :=
          match r with
          | s :: r' =>
              if signed && (Ascii.eqb s "+" || Ascii.eqb s "-") then ([s], r') else ([], r)
          | [] => ([], r)
          end in
        match span_digits r1 with
        | ([], _) => ([], l)
        | (ds, r2) => (m :: sg ++ ds, r2)
        end
      else ([], l)
  | [] => ([], l)
  end.

Definition scan_number (l : list ascii) : parsed (list ascii) :=
  let '(sign, l1) :=
    match l with
    | c :: r => if Ascii.eqb c "-" then ([c], r) else ([], l)
    | [] => ([], l)
    end in
  match l1 with
  | [] => Malformed
  | d :: r =>
      if is_digit d then
        let '(int, l2) :=
          if Ascii.eqb d "0" then ([d], r)
          else let '(ds, r') := span_digits r in (d :: ds, r') in
        let '(frac, l3) := scan_optional ["."%char] false l2 in
        let '(exp, l4) := scan_optional ["e"%char; "E"%char] true l3 in
        Parsed (sign ++ int ++ frac ++ exp) l4
      else Malformed
  end.

(** [expect w l]: what follows the word [w] at the head of [l]. *)
Fixpoint expect (w l : list ascii) : option (list ascii) :=
  match w, l with
  | [], _ => Some l
  | a :: w', c :: l' => if Ascii.eqb a c then expect w' l' else None
  | _ :: _, [] => None
  end.

Definition literal (w : string) (j : json) (l : list ascii) : parsed json :=
  match expect (list_ascii_of_string w) l with
  | Some rest => Parsed j rest
  | None => Malformed
  end.

(** The elements of an array after the first bracket, at most [k] of them;
    [pv] reads one value. *)
Fixpoint elements (pv : list ascii → parsed json) (k : nat)
    (acc : list json) (l : list ascii) : parsed (list json) :=
  match k with
  | 0 => Exhausted
  | S k' =>
      match pv l with
      | Parsed v r =>
          match skip_ws r with
          | c :: r' =>
              if Ascii.eqb c "," then elements pv k' (v :: acc) r'
              else if Ascii.eqb c "]" then Parsed (rev (v :: acc)) r'
              else Malformed
          | [] => Malformed
          end
      | Malformed => Malformed
      | Exhausted => Exhausted
      end
  end.

(** The members of an object after the brace, at most [k] of them.  A later
    member with the same key replaces the earlier one. *)
Fixpoint members (pv : list ascii → parsed json) (k : nat)
    (acc : gmap string json) (l : list ascii) : parsed (gmap string json) :=
  match k with
  | 0 => Exhausted
  | S k' =>
      match skip_ws l with
      | q :: r0 =>
          if Ascii.eqb q dquote then
            match parse_string r0 with
            | Parsed key r1 =>
                match skip_ws r1 with
                | c :: r2 =>
                    if Ascii.eqb c ":" then
                      match pv r2 with
                      | Parsed v r3 =>
                          match skip_ws r3 with
                          | c' :: r4 =>
                              if Ascii.eqb c' "," then members pv k' (<[key := v]> acc) r4
                              else if Ascii.eqb c' "}" then Parsed (<[key := v]> acc) r4
                              else Malformed
                          | [] => Malformed
                          end
                      | Malformed => Malformed
                      | Exhausted => Exhausted
                      end
                    else Malformed
                | [] => Malformed
                end
            | Malformed => Malformed
            | Exhausted => Exhausted
            end
          else Malformed
      | [] => Malformed
      end
  end.

(** One JSON value, leading whitespace included; [n] bounds the nesting. *)
Fixpoint parse_value (n : nat) (l : list ascii) : parsed json :=
  match n with
  | 0 => Exhausted
  | S n' =>
      match skip_ws l with
      | [] => Malformed
      | c :: r =>
          if Ascii.eqb c "{" then
            match skip_ws r with
            | c' :: r' =>
                if Ascii.eqb c' "}" then Parsed (JObj ∅) r'
                else parsed_map JObj (members (parse_value n') n' ∅ r)
            | [] => Malformed
            end
          else if Ascii.eqb c "[" then
            match skip_ws r with
            | c' :: r' =>
                if Ascii.eqb c' "]" then Parsed (JArr []) r'
                else parsed_map JArr (elements (parse_value n') n' [] r)
            | [] => Malformed
            end
          else if Ascii.eqb c dquote then parsed_map JStr (parse_string r)
          else if Ascii.eqb c "t" then literal "true" (JBool true) (c :: r)
          else if Ascii.eqb c "f" then literal "false" (JBool false) (c :: r)
          else if Ascii.eqb c "n" then literal "null" JNull (c :: r)
          else parsed_map (λ t, JNum (string_of_list_ascii t)) (scan_number (c :: r))
      end
  end.

(** [JSON.parse(text)]: one value, then only whitespace. *)
Definition JSON_parse (text : string) : result json :=
  let l := list_ascii_of_string text in
  match parse_value (S (List.length l)) l with
  | Parsed j rest =>
      match skip_ws rest with
      | [] => Ok j
      | _ :: _ => Throw SyntaxError
      end
  | Malformed | Exhausted => Throw SyntaxError
  end.

(** ** The normalized profile

    The object handed to [done].  A field that was never assigned reads as
    [undefined], so [None] stands both for an absent field and for one that
    holds [undefined]. *)

Module Name.
Record t : Type := {
  familyName : option json;
  givenName : option json;
  middleName : string;
}.
End Name.

Module Email.
Record t : Type := { value : option json }.
End Email.

Module Profile.
Record t : Type := {
  provider : string;
  id : option json;
  displayName : option json;
  name : option Name.t;
  emails : option (list Email.t);
  _raw : string;
  _json : json;
}.
End Profile.

(** ** The boundary of the strategy

    What the strategy asks of the OAuth2 client held in [_oauth2], what the
    client answers, and the calls of the completion callback. *)

Inductive request : Type :=
| OAuth2Get (url accessToken : string)
    (* _oauth2.get(url, accessToken, callback) *)
| OAuth2Request (method url : string) (headers : gmap string string)
    (post_body accessToken : string).
    (* _oauth2._request(method, url, headers, post_body, accessToken, callback) *)

(** The arguments [(err, body, res)] of the callback the client is given; the
    strategy never reads [res]. *)
Record response : Type := { res_err : value; res_body : string }.

Inductive event : Type :=
| Sent (req : request)
| Received (res : response)
| Called (err : option exn) (profile : option Profile.t).

(** The behaviour of a completion callback: returning, or throwing. *)
Definition completion : Type := option exn → option Profile.t → option exn.

Definition loc : Type := positive.

Definition supportedApiVersions : list string := ["1"; "2"].

Definition defaultOptionsByApiVersion : gmap string (gmap string value) :=
  {[ "1" := {[ "authorizationURL" := VStr "https://www.dropbox.com/1/oauth2/authorize";
               "tokenURL" := VStr "https://api.dropbox.com/1/oauth2/token";
               "scopeSeparator" := VStr ",";
               "customHeaders" := VObj ∅ ]};
     "2" := {[ "authorizationURL" := VStr "https://www.dropbox.com/oauth2/authorize";
               "tokenURL" := VStr "https://api.dropbox.com/oauth2/token";
               "scopeSeparator" := VStr ",";
               "customHeaders" := VObj {[ "Content-Type" := VStr "application/json" ]} ]} ]}.

Definition unsupported_message : string :=
  "Unsupported Dropbox API version. Supported versions are "
  +:+ dq "'1' and '2'.".

Section Strategy.

(** The collaborators the strategy is given: the inherited
    [OAuth2Strategy] constructor, of whose effect on the instance the
    strategy uses the [_oauth2] client alone, and that client's
    [buildAuthHeader], [get] and [_request].  The last two are one
    [transport], which answers a request by one call of the callback.  The
    inherited constructor reads the options and leaves them as they are. *)
Context {callback OAuth2 network : Type}.
Variable OAuth2Strategy : gmap string value → callback → result OAuth2.
Variable buildAuthHeader : OAuth2 → string → string.
Variable transport : OAuth2 → request → network → network * response.

(** The world: the objects the caller and the strategy share, the network,
    and the calls made so far across the boundary. *)
Record world : Type := {
  heap : gmap loc (gmap string value);
  net : network;
  trace : list event;
}.

(** Computations that change the world and may throw. *)
Definition M (A : Type) : Type := world → world * result A.

#[local] Instance M_ret : MRet M := λ A a w, (w, Ok a).
#[local] Instance M_bind : MBind M := λ A B f m w,
  match m w with
  | (w', Ok a) => f a w'
  | (w', Throw e) => (w', Throw e)
  end.

Definition throw {A} (e : exn) : M A := λ w, (w, Throw e).
Definition lift {A} (r : result A) : M A := λ w, (w, r).

(** [try { body } catch (e) { handler e }]. *)
Definition try_catch {A} (body : M A) (handler : exn → M A) : M A := λ w,
  match body w with
  | (w', Throw e) => handler e w'
  | (w', Ok a) => (w', Ok a)
  end.

(** [{}]. *)
Definition new_object : M loc := λ w,
  let l := fresh (dom (heap w)) in
  ({| heap := <[l := ∅]> (heap w); net := net w; trace := trace w |}, Ok l).

Definition object_at (l : loc) (w : world) : gmap string value :=
  default ∅ (heap w !! l).

(** The properties of the object at [o], as a callee that is handed [o]
    finds them. *)
Definition contents (o : loc) : M (gmap string value) := λ w,
  (w, Ok (object_at o w)).

(** [o.k] and [o.k = v] on the object at [o]. *)
Definition get (o : loc) (k : string) : M value := λ w,
  (w, Ok (default VUndef (object_at o w !! k))).

Definition set (o : loc) (k : string) (v : value) : M () := λ w,
  ({| heap := <[o := <[k := v]> (object_at o w)]> (heap w);
      net := net w; trace := trace w |}, Ok ()).

Definition emit (evs : list event) : M () := λ w,
  ({| heap := heap w; net := net w; trace := trace w ++ evs |}, Ok ()).

(** The instance: the two fields the constructor itself writes and the
    client the inherited constructor installs. *)
Record strategy : Type := {
  _apiVersion : value;
  _oauth2 : OAuth2;
  name : string;
}.

(** [defaultOptionsByApiVersion[_apiVersion].k]. *)
Definition default_option (_apiVersion : value) (k : string) : M value :=
  key ← lift (ToString _apiVersion);
  match defaultOptionsByApiVersion !! key with
  | Some defaults => mret (default VUndef (defaults !! k))
  | None => throw TypeError
  end.

(** [options.k = options.k || defaultOptionsByApiVersion[_apiVersion].k]. *)
Definition resolve (options : loc) (_apiVersion : value) (k : string) : M () :=
  current ← get options k;
  v ← or_else current (default_option _apiVersion k);
  set options k v.

(** [new Strategy(options, verify)]; [options] is an object or absent. *)
Definition Strategy (options : option loc) (verify : callback) : M strategy :=
  options ← match options with Some o => mret o | None => new_object end;
  apiVersion ← get options "apiVersion";
  (if not_nullish apiVersion then
     s ← lift (toString apiVersion);
     if indexOf_is_minus1 supportedApiVersions s
     then throw (Error unsupported_message)
     else mret ()
   else mret ());;
  let _apiVersion := if truthy apiVersion then apiVersion else VStr "1" in
  resolve options _apiVersion "authorizationURL";;
  resolve options _apiVersion "tokenURL";;
  resolve options _apiVersion "scopeSeparator";;
  resolve options _apiVersion "customHeaders";;
  resolved ← contents options;
  oauth2 ← lift (OAuth2Strategy resolved verify);
  mret {| _apiVersion := _apiVersion; _oauth2 := oauth2; name := "dropbox-oauth2" |}.

(** The client takes the request and calls back with its answer. *)
Definition send (oauth2 : OAuth2) (req : request) (callback : response → M ()) : M () :=
  λ w,
    let '(n, res) := transport oauth2 req (net w) in
    callback res {| heap := heap w; net := n;
                    trace := trace w ++ [Sent req; Received res] |}.

Definition _retrieveUserProfile (this : strategy) (accessToken : string)
    (callback : response → M ()) : M () :=
  if strict_eq_str (_apiVersion this) "1" then
    send (_oauth2 this)
      (OAuth2Get "https://api.dropbox.com/1/account/info" accessToken) callback
  else if strict_eq_str (_apiVersion this) "2" then
    send (_oauth2 this)
      (OAuth2Request "POST" "https://api.dropboxapi.com/2/users/get_current_account"
         {[ "Authorization" := buildAuthHeader (_oauth2 this) accessToken ]}
         "null" accessToken) callback
  else mret ().

(** [done(err, profile)]. *)
Definition call (done : completion) (err : option exn) (profile : option Profile.t)
    : M () :=
  emit [Called err profile];;
  match done err profile with
  | Some e => throw e
  | None => mret ()
  end.

(** Lines 126 to 150: the profile made of a parsed payload. *)
Definition normalize (_apiVersion : value) (body : string) (json : json)
    : result Profile.t :=
  if strict_eq_str _apiVersion "1" then
    uid ← prop (Some json) "uid";
    display_name ← prop (Some json) "display_name";
    name_details ← prop (Some json) "name_details";
    surname ← prop name_details "surname";
    given_name ← prop name_details "given_name";
    email ← prop (Some json) "email";
    Ok {| Profile.provider := "dropbox";
          Profile.id := uid;
          Profile.displayName := display_name;
          Profile.name := Some {| Name.familyName := surname;
                                  Name.givenName := given_name;
                                  Name.middleName := "" |};
          Profile.emails := Some [ {| Email.value := email |} ];
          Profile._raw := body;
          Profile._json := json |}
  else if strict_eq_str _apiVersion "2" then
    account_id ← prop (Some json) "account_id";
    name ← prop (Some json) "name";
    display_name ← prop name "display_name";
    surname ← prop name "surname";
    given_name ← prop name "given_name";
    email ← prop (Some json) "email";
    Ok {| Profile.provider := "dropbox";
          Profile.id := account_id;
          Profile.displayName := display_name;
          Profile.name := Some {| Name.familyName := surname;
                                  Name.givenName := given_name;
                                  Name.middleName := "" |};
          Profile.emails := Some [ {| Email.value := email |} ];
          Profile._raw := body;
          Profile._json := json |}
  else
    Ok {| Profile.provider := "dropbox";
          Profile.id := None;
          Profile.displayName := None;
          Profile.name := None;
          Profile.emails := None;
          Profile._raw := body;
          Profile._json := json |}.

(** Lines 120 to 156: the function [userProfile] hands to
    [_retrieveUserProfile], bound to the instance. *)
Definition profile_callback (this : strategy) (done : completion) (res : response)
    : M () :=
  if truthy (res_err res) then
    call done
      (Some (InternalOAuthError "failed to fetch user profile" (res_err res))) None
  else
    try_catch
      (json ← lift (JSON_parse (res_body res));
       profile ← lift (normalize (_apiVersion this) (res_body res) json);
       call done None (Some profile))
      (λ e, call done (Some e) None).

Definition userProfile (this : strategy) (accessToken : string) (done : completion)
    : M () :=
  _retrieveUserProfile this accessToken (profile_callback this done).

End Strategy.

(** ** Observing a run *)

(** The calls a computation added to the trace. *)
Definition new_events {network} (w w' : @world network) : list event :=
  drop (List.length (trace w)) (trace w').

Definition calls (evs : list event) : list (option exn * option Profile.t) :=
  omap (λ ev, match ev with Called err profile => Some (err, profile) | _ => None end) evs.

Definition requests (evs : list event) : list request :=
  omap (λ ev, match ev with Sent req => Some req | _ => None end) evs.

(** The calls of [done] that the answer [res] leads to, written out: the
    wrapped error for an answer with an error; otherwise the exception of
    parsing or normalizing, or the profile, followed by whatever [done] threw
    at it. *)
Definition deliveries (_apiVersion : value) (done : completion) (res : response)
    : list event :=
  if truthy (res_err res) then
    [Called (Some (InternalOAuthError "failed to fetch user profile" (res_err res))) None]
  else
    match JSON_parse (res_body res) ≫= normalize _apiVersion (res_body res) with
    | Throw e => [Called (Some e) None]
    | Ok profile =>
        match done None (Some profile) with
        | None => [Called None (Some profile)]
        | Some e => [Called None (Some profile); Called (Some e) None]
        end
    end.

(** What [profile_callback] ends with for the answer [res]: it returns, or
    it throws what the last call of [done] threw. *)
Definition thrown (e : option exn) : result () :=
  match e with Some e => Throw e | None => Ok () end.

Definition escapes (_apiVersion : value) (done : completion) (res : response)
    : result () :=
  if truthy (res_err res) then
    thrown (done (Some (InternalOAuthError "failed to fetch user profile" (res_err res)))
              None)
  else
    match JSON_parse (res_body res) ≫= normalize _apiVersion (res_body res) with
    | Throw e => thrown (done (Some e) None)
    | Ok profile =>
        match done None (Some profile) with
        | None => Ok ()
        | Some e => thrown (done (Some e) None)
        end
    end.

(** ** The constructor, as the specification words it

    The version in force, and the options with each of the four settings
    filled in from the table of that version when it is unset or falsy. *)

Definition version_in_force (apiVersion : value) : value :=
  if truthy apiVersion then apiVersion else VStr "1".

Definition setting (o : gmap string value) (k : string) : value :=
  default VUndef (o !! k).

Definition fill (defaults : gmap string value) (k : string) (o : gmap string value)
    : gmap string value :=
  <[k := if truthy (setting o k) then setting o k else setting defaults k]> o.

Definition resolved (defaults o : gmap string value) : gmap string value :=
  fill defaults "customHeaders"
    (fill defaults "scopeSeparator"
      (fill defaults "tokenURL"
        (fill defaults "authorizationURL" o))).

Definition settings : list string :=
  ["authorizationURL"; "tokenURL"; "scopeSeparator"; "customHeaders"].

(** The table entry of the version in force. *)
Definition defaults_for (apiVersion : value) : gmap string value :=
  match ToString (version_in_force apiVersion) with
  | Ok key => default ∅ (defaultOptionsByApiVersion !! key)
  | Throw _ => ∅
  end.

(** An [apiVersion] the constructor lets through: one that is not supplied,
    or one whose [toString()] is a supported version. *)
Definition accepted (apiVersion : value) : Prop :=
  not_nullish apiVersion = false ∨
  ∃ s, toString apiVersion = Ok s ∧ (s = "1" ∨ s = "2").

(** The world in which the object at [l] has become [o]. *)
Definition with_object {network} (l : loc) (o : gmap string value)
    (w : @world network) : @world network :=
  {| heap := <[l := o]> (heap w); net := net w; trace := trace w |}.

(** The world after the calls [evs], with the network left in state [n]. *)
Definition extend {network} (evs : list event) (n : network)
    (w : @world network) : @world network :=
  {| heap := heap w; net := n; trace := trace w ++ evs |}.

(** ** Sample data: the two account payloads of the specification, and
    stand-ins for the collaborators *)

Module Sample.

Definition v1_body : string :=
  dq "{'uid':'42','display_name':'A B','name_details':{'surname':'B','given_name':'A'},'email':'a@b.com'}".

Definition v1_payload : json :=
  JObj {[ "uid" := JStr "42";
          "display_name" := JStr "A B";
          "name_details" := JObj {[ "surname" := JStr "B"; "given_name" := JStr "A" ]};
          "email" := JStr "a@b.com" ]}.

Definition v1_profile : Profile.t :=
  {| Profile.provider := "dropbox";
     Profile.id := Some (JStr "42");
     Profile.displayName := Some (JStr "A B");
     Profile.name := Some {| Name.familyName := Some (JStr "B");
                             Name.givenName := Some (JStr "A");
                             Name.middleName := "" |};
     Profile.emails := Some [ {| Email.value := Some (JStr "a@b.com") |} ];
     Profile._raw := v1_body;
     Profile._json := v1_payload |}.

Definition v2_body : string :=
  dq "{'account_id':'acc1','name':{'display_name':'A B','surname':'B','given_name':'A'},'email':'a@b.com'}".

Definition v2_payload : json :=
  JObj {[ "account_id" := JStr "acc1";
          "name" := JObj {[ "display_name" := JStr "A B";
                            "surname" := JStr "B";
                            "given_name" := JStr "A" ]};
          "email" := JStr "a@b.com" ]}.

Definition v2_profile : Profile.t :=
  {| Profile.provider := "dropbox";
     Profile.id := Some (JStr "acc1");
     Profile.displayName := Some (JStr "A B");
     Profile.name := Some {| Name.familyName := Some (JStr "B");
                             Name.givenName := Some (JStr "A");
                             Name.middleName := "" |};
     Profile.emails := Some [ {| Email.value := Some (JStr "a@b.com") |} ];
     Profile._raw := v2_body;
     Profile._json := v2_payload |}.

(** An inherited constructor that accepts every options bag, a client that
    builds bearer headers, and a transport that gives one fixed answer and
    counts the requests it saw. *)
Definition accept : gmap string value → () → result () := λ _ _, Ok ().

Definition bearer : () → string → string := λ _ token, "Bearer " +:+ token.

Definition answering (res : response) : () → request → nat → nat * response :=
  λ _ _ seen, (S seen, res).

Definition success (body : string) : response :=
  {| res_err := VNull; res_body := body |}.

Definition failure : response :=
  {| res_err := VObj {[ "statusCode" := VNum 401; "data" := VStr "Unauthorized" ]};
     res_body := "" |}.

(** Completion callbacks: one that returns, one that throws on success. *)
Definition returning : completion := λ _ _, None.

Definition throwing_on_success : completion := λ err _,
  match err with None => Some (Error "verify failed") | Some _ => None end.

(** A world whose only object, at [caller], is the caller's options bag. *)
Definition caller : loc := 1%positive.

Definition world_with (options : gmap string value) : @world nat :=
  {| heap := {[ caller := options ]}; net := 0; trace := [] |}.

Definition instance (_apiVersion : value) : @strategy () :=
  {| _apiVersion := _apiVersion; _oauth2 := (); name := "dropbox-oauth2" |}.

(** A callback that always throws, and an inherited constructor that turns
    every options bag away. *)
Definition throwing : completion := λ _ _, Some (Error "verify failed").

Definition refuse : gmap string value → () → result () := λ _ _, Throw TypeError.

(** [userProfile] on an instance of the given version, with a client that
    answers [res] and a callback that returns. *)
Definition fetch (_apiVersion : value) (res : response) : @M nat () :=
  userProfile bearer (answering res) (instance _apiVersion) "token" returning.

End Sample.

(** * Properties *)

#[local] Open Scope nat_scope.

(** ** JSON.parse is total

    The parser is driven by a bound on the nesting.  The bound [JSON_parse]
    gives it, one more than the length of the text, is never reached, so a
    text is either malformed or has a value. *)

Abbreviation len := (@List.length ascii).

Lemma parsed_map_rest {A B} (f : A → B) (p : parsed A) b r :
  parsed_map f p = Parsed b r → ∃ a, p = Parsed a r ∧ b = f a.
Proof. destruct p; simpl; intros; simplify_eq; eauto. Qed.

Lemma parsed_map_exhausted {A B} (f : A → B) (p : parsed A) :
  parsed_map f p = Exhausted → p = Exhausted.
Proof. by destruct p. Qed.

Lemma skip_ws_length l : len (skip_ws l) ≤ len l.
Proof. induction l as [|c l IH]; simpl; [lia|]. case_match; simpl; lia. Qed.

Lemma scan_string_total l : scan_string l ≠ Exhausted.
Proof.
  induction l as [l IH] using (induction_ltof1 _ len). unfold ltof in IH.
  destruct l as [|c r]; simpl; [done|].
  repeat case_match; simplify_eq; try done;
    intros Hx%parsed_map_exhausted; (eapply IH; [|exact Hx]); simpl; lia.
Qed.

Lemma scan_string_rest l cs r : scan_string l = Parsed cs r → len r < len l.
Proof.
  revert cs r. induction l as [l IH] using (induction_ltof1 _ len). unfold ltof in IH.
  intros cs r. destruct l as [|c r0]; simpl; [done|].
  repeat case_match; simplify_eq; try done;
    try (intros [= <- <-]; lia);
    intros (cs' & Hx & _)%parsed_map_rest; apply IH in Hx; simpl in *; lia.
Qed.

Lemma parse_string_total l : parse_string l ≠ Exhausted.
Proof. intros Hx%parsed_map_exhausted. by apply scan_string_total in Hx. Qed.

Lemma parse_string_rest l s r : parse_string l = Parsed s r → len r < len l.
Proof. intros (cs & Hx & _)%parsed_map_rest. by apply scan_string_rest in Hx. Qed.

Lemma span_digits_rest l : len (span_digits l).2 ≤ len l.
Proof.
  induction l as [|c l IH]; simpl; [lia|].
  case_match; simpl; [|lia]. destruct (span_digits l); simpl in *; lia.
Qed.

Lemma scan_optional_rest marks signed l : len (scan_optional marks signed l).2 ≤ len l.
Proof.
  unfold scan_optional. destruct l as [|m r]; simpl; [lia|].
  case_match; simpl; [|lia].
  assert (∀ sg r1, len r1 ≤ len r →
    len (let '(ds, r2) := span_digits r1 in
         match ds with [] => ([], m :: r) | _ :: _ => (m :: sg ++ ds, r2) end).2
    ≤ S (len r)) as Hgen.
  { intros sg r1 Hr1. pose proof (span_digits_rest r1) as K.
    destruct (span_digits r1) as [[|d ds] r2]; simpl in *; lia. }
  destruct r as [|s r']; [by apply Hgen|].
  case_match; apply Hgen; case_match; simplify_eq; simpl; lia.
Qed.

Lemma scan_number_total l : scan_number l ≠ Exhausted.
Proof. unfold scan_number. repeat case_match; done. Qed.

Lemma scan_number_rest l t r : scan_number l = Parsed t r → len r ≤ len l.
Proof.
  unfold scan_number. intros Hx.
  repeat case_match; simplify_eq; simpl in *;
  repeat match goal with
  | H : scan_optional ?m ?s ?l = (_, ?r) |- _ =>
      let K := fresh in pose proof (scan_optional_rest m s l) as K; rewrite H in K; clear H
  | H : span_digits ?l = (_, ?r) |- _ =>
      let K := fresh in pose proof (span_digits_rest l) as K; rewrite H in K; clear H
  end; simpl in *; lia.
Qed.

Lemma expect_rest w l r : expect w l = Some r → len r ≤ len l.
Proof.
  revert l. induction w as [|a w IH]; intros [|c l]; simpl; try (intros [= <-]; simpl; lia); try done.
  case_match; [|done]. intros Hx%IH. lia.
Qed.

Lemma literal_rest w j l v r : literal w j l = Parsed v r → len r ≤ len l.
Proof. unfold literal. case_match eqn:E; intros; simplify_eq. by apply expect_rest in E. Qed.

Lemma literal_total w j l : literal w j l ≠ Exhausted.
Proof. unfold literal. by case_match. Qed.

Section loops.
Context (pv : list ascii → parsed json).
Hypothesis pv_rest : ∀ l v r, pv l = Parsed v r → len r ≤ len l.

Lemma elements_rest k acc l vs r :
  elements pv k acc l = Parsed vs r → len r ≤ len l.
Proof.
  revert acc l. induction k as [|k IH]; intros acc l; simpl; [done|].
  destruct (pv l) as [v r0| |] eqn:E; try done. apply pv_rest in E.
  pose proof (skip_ws_length r0).
  destruct (skip_ws r0) as [|c r']; [done|]. simpl in *.
  repeat case_match; try done.
  - intros H'%IH. lia.
  - intros [= <- <-]. lia.
Qed.

Lemma members_rest k acc l m r :
  members pv k acc l = Parsed m r → len r ≤ len l.
Proof.
  revert acc l. induction k as [|k IH]; intros acc l; simpl; [done|].
  pose proof (skip_ws_length l).
  destruct (skip_ws l) as [|q r0]; [done|]. simpl in *.
  case_match; [|done].
  destruct (parse_string r0) as [key r1| |] eqn:E1; try done.
  apply parse_string_rest in E1. pose proof (skip_ws_length r1).
  destruct (skip_ws r1) as [|c r2]; [done|]. simpl in *.
  case_match; [|done].
  destruct (pv r2) as [v r3| |] eqn:E2; try done. apply pv_rest in E2.
  pose proof (skip_ws_length r3).
  destruct (skip_ws r3) as [|c' r4]; [done|]. simpl in *.
  repeat case_match; try done.
  - intros H'%IH. lia.
  - intros [= <- <-]. lia.
Qed.

Context (bound : nat).
Hypothesis pv_total : ∀ l, len l ≤ bound → pv l ≠ Exhausted.

Lemma elements_total k acc l :
  len l ≤ bound → len l < k → elements pv k acc l ≠ Exhausted.
Proof.
  revert acc l. induction k as [|k IH]; intros acc l Hb Hk; simpl; [lia|].
  destruct (pv l) as [v r0| |] eqn:E; try done.
  - apply pv_rest in E. pose proof (skip_ws_length r0).
    destruct (skip_ws r0) as [|c r']; [done|]. simpl in *.
    repeat case_match; try done. apply IH; lia.
  - by apply pv_total in E.
Qed.

Lemma members_total k acc l :
  len l ≤ bound → len l < k → members pv k acc l ≠ Exhausted.
Proof.
  revert acc l. induction k as [|k IH]; intros acc l Hb Hk; simpl; [lia|].
  pose proof (skip_ws_length l).
  destruct (skip_ws l) as [|q r0]; [done|]. simpl in *.
  case_match; [|done].
  destruct (parse_string r0) as [key r1| |] eqn:E1; try done.
  - apply parse_string_rest in E1. pose proof (skip_ws_length r1).
    destruct (skip_ws r1) as [|c r2]; [done|]. simpl in *.
    case_match; [|done].
    destruct (pv r2) as [v r3| |] eqn:E2; try done.
    + apply pv_rest in E2. pose proof (skip_ws_length r3).
      destruct (skip_ws r3) as [|c' r4]; [done|]. simpl in *.
      repeat case_match; try done. apply IH; lia.
    + apply pv_total in E2; [done|lia].
  - by apply parse_string_total in E1.
Qed.
End loops.

Lemma parse_value_rest n l v r : parse_value n l = Parsed v r → len r ≤ len l.
Proof.
  revert l v r. induction n as [|n IH]; intros l v r; simpl; [done|].
  pose proof (skip_ws_length l).
  destruct (skip_ws l) as [|c r0]; [done|]. simpl in *.
  pose proof (skip_ws_length r0) as K.
  repeat case_match; simplify_eq;
    try match goal with E : skip_ws r0 = _ |- _ => rewrite E in K; simpl in K end;
    try done;
    try (intros [= <- <-]; simpl in *; lia);
    try (intros Hm%literal_rest; simpl in *; lia);
    intros (m & Hm & _)%parsed_map_rest;
    first [ apply members_rest in Hm; [simpl in *; lia | apply IH]
          | apply elements_rest in Hm; [simpl in *; lia | apply IH]
          | apply parse_string_rest in Hm; simpl in *; lia
          | apply scan_number_rest in Hm; simpl in *; lia ].
Qed.

Lemma parse_value_total n l : len l < n → parse_value n l ≠ Exhausted.
Proof.
  revert l. induction n as [|n IH]; intros l Hn; simpl; [lia|].
  pose proof (skip_ws_length l).
  destruct (skip_ws l) as [|c r0]; [done|]. simpl in *.
  repeat case_match; simplify_eq;
    try done; try apply literal_total;
    intros Hm%parsed_map_exhausted; revert Hm;
    first [ apply (members_total _ (λ l, parse_value_rest n l) (len r0)); [|lia..];
            intros; apply IH; lia
          | apply (elements_total _ (λ l, parse_value_rest n l) (len r0)); [|lia..];
            intros; apply IH; lia
          | apply parse_string_total
          | apply scan_number_total ].
Qed.

(** [JSON.parse] never runs out of fuel: a text is malformed or has a value. *)
Lemma JSON_parse_fuel text :
  parse_value (S (len (list_ascii_of_string text))) (list_ascii_of_string text) ≠ Exhausted.
Proof. apply parse_value_total. lia. Qed.

Lemma JSON_parse_throws text e : JSON_parse text = Throw e → e = SyntaxError.
Proof. unfold JSON_parse. repeat case_match; by intros [= <-]. Qed.

(** ** The strategy *)

Section Properties.

Context {callback OAuth2 network : Type}.
Variable OAuth2Strategy : gmap string value → callback → result OAuth2.
Variable buildAuthHeader : OAuth2 → string → string.
Variable transport : OAuth2 → request → network → network * response.

Implicit Types (w : @world network) (o : gmap string value) (v : value).
Implicit Types (this : @strategy OAuth2) (done : completion) (res : response).

(** *** Worlds *)

Lemma world_eta w : {| heap := heap w; net := net w; trace := trace w |} = w.
Proof. by destruct w. Qed.

Lemma object_at_with l o w : object_at l (with_object l o w) = o.
Proof. unfold object_at, with_object. simpl. by rewrite lookup_insert_eq. Qed.

Lemma with_object_twice l o o' w : with_object l o' (with_object l o w) = with_object l o' w.
Proof. unfold with_object. simpl. by rewrite insert_insert_eq. Qed.

Lemma resolve_run l v k s defaults w :
  ToString v = Ok s → defaultOptionsByApiVersion !! s = Some defaults →
  resolve l v k w = (with_object l (fill defaults k (object_at l w)) w, Ok ()).
Proof.
  intros Hs Hd. unfold resolve, or_else, default_option, fill, setting, get, set, with_object.
  unfold mbind, M_bind, mret, M_ret, lift, throw. simpl.
  destruct (truthy _); simpl; [done|]. rewrite Hs. simpl. by rewrite Hd.
Qed.

Lemma with_object_same l o w : heap w !! l = Some o → with_object l o w = w.
Proof. intros H. unfold with_object. rewrite insert_id; [|done]. apply world_eta. Qed.

Lemma object_at_lookup l o w : heap w !! l = Some o → object_at l w = o.
Proof. unfold object_at. by intros ->. Qed.

Lemma toString_supported_truthy v s :
  toString v = Ok s → s = "1" ∨ s = "2" → truthy v = true.
Proof.
  intros Hs Hsup. destruct v as [| |b|n| |t|xs|fields]; simpl in *; try done.
  - destruct b; [done|]. simplify_eq. destruct Hsup as [Hx|Hx]; discriminate Hx.
  - destruct (Z.eqb_spec n 0) as [->|]; [|done]. simplify_eq.
    vm_compute in Hsup. destruct Hsup as [Hx|Hx]; discriminate Hx.
  - simplify_eq. destruct Hsup as [Hx|Hx]; discriminate Hx.
  - simplify_eq. by destruct Hsup as [-> | ->].
Qed.

Lemma toString_ToString v s : toString v = Ok s → ToString v = Ok s.
Proof. by destruct v. Qed.

Lemma accepted_key v :
  accepted v →
  ∃ s, ToString (version_in_force v) = Ok s ∧ (s = "1" ∨ s = "2")
       ∧ (not_nullish v = true → toString v = Ok s).
Proof.
  intros [Hn|(s & Hs & Hsup)].
  - exists "1". destruct v; try done; simpl; split_and!; auto; done.
  - exists s. unfold version_in_force.
    rewrite (toString_supported_truthy v s Hs Hsup). eauto using toString_ToString.
Qed.

Lemma supported_defaults s :
  s = "1" ∨ s = "2" → is_Some (defaultOptionsByApiVersion !! s).
Proof. intros [->| ->]; vm_compute; eauto. Qed.

(** The constructor on an options bag it lets through: the caller's object
    becomes the resolved options, which the inherited constructor is given. *)
Lemma Strategy_run l o verify w :
  heap w !! l = Some o →
  accepted (setting o "apiVersion") →
  Strategy OAuth2Strategy (Some l) verify w =
    (with_object l (resolved (defaults_for (setting o "apiVersion")) o) w,
     oauth2 ← OAuth2Strategy (resolved (defaults_for (setting o "apiVersion")) o) verify;
     Ok {| _apiVersion := version_in_force (setting o "apiVersion");
           _oauth2 := oauth2; name := "dropbox-oauth2" |}).
Proof.
  intros Ho Hacc. destruct (accepted_key _ Hacc) as (s & Hs & Hsup & Hts).
  destruct (supported_defaults s Hsup) as [d Hd].
  unfold Strategy. unfold mbind at 1 2 3. unfold M_bind at 1 2 3.
  unfold mret at 1, M_ret at 1, get at 1. rewrite (object_at_lookup _ _ _ Ho).
  fold (setting o "apiVersion"). set (v := setting o "apiVersion") in *.
  assert ((if not_nullish v
           then s0 ← lift (toString v);
                (if indexOf_is_minus1 supportedApiVersions s0
                 then throw (Error unsupported_message) else mret ())
           else mret ()) w = (w, Ok ())) as ->.
  { destruct (not_nullish v); [|done]. rewrite Hts by done.
    unfold mbind, M_bind, lift. by destruct Hsup as [-> | ->]. }
  fold (version_in_force v).
  unfold mbind, M_bind.
  rewrite (resolve_run _ _ _ _ _ _ Hs Hd), (object_at_lookup _ _ _ Ho).
  rewrite (resolve_run _ _ _ _ _ _ Hs Hd), object_at_with, with_object_twice.
  rewrite (resolve_run _ _ _ _ _ _ Hs Hd), object_at_with, with_object_twice.
  rewrite (resolve_run _ _ _ _ _ _ Hs Hd), object_at_with, with_object_twice.
  unfold contents. rewrite object_at_with. unfold defaults_for. rewrite Hs, Hd. simpl.
  unfold resolved, lift. by destruct (OAuth2Strategy _ _).
Qed.

(** The constructor on an options bag it turns away: the check of line 65
    throws, be it the configuration error or the failure of [toString()], and
    the world is as it was. *)
Lemma Strategy_turns_away l o verify w e :
  heap w !! l = Some o →
  not_nullish (setting o "apiVersion") = true →
  (s ← toString (setting o "apiVersion");
   if indexOf_is_minus1 supportedApiVersions s
   then Throw (Error unsupported_message) else Ok ()) = Throw e →
  Strategy OAuth2Strategy (Some l) verify w = (w, Throw e).
Proof.
  intros Ho Hn He.
  unfold Strategy. unfold mbind at 1 2 3. unfold M_bind at 1 2 3.
  unfold mret at 1, M_ret at 1, get at 1. rewrite (object_at_lookup _ _ _ Ho).
  fold (setting o "apiVersion"). rewrite Hn.
  unfold mbind, M_bind, lift, throw. unfold mbind, result_bind in He.
  destruct (toString (setting o "apiVersion")) as [s|e']; [|by simplify_eq].
  destruct (indexOf_is_minus1 supportedApiVersions s); by simplify_eq.
Qed.

Lemma new_events_extend evs n w : new_events w (extend evs n w) = evs.
Proof. unfold new_events, extend. simpl. by rewrite drop_app_length. Qed.

Lemma new_events_same w : new_events w w = [].
Proof. unfold new_events. by rewrite drop_all. Qed.

Lemma extend_extend evs evs' n n' w :
  extend evs' n' (extend evs n w) = extend (evs ++ evs') n' w.
Proof. unfold extend. simpl. by rewrite <-app_assoc. Qed.

Lemma call_run done err p w :
  call done err p w =
    (extend [Called err p] (net w) w,
     match done err p with Some e => Throw e | None => Ok () end).
Proof.
  unfold call, emit, extend, mbind, M_bind, throw, mret, M_ret. simpl.
  by destruct (done err p).
Qed.

Lemma profile_callback_run this done res w :
  ∃ r, profile_callback this done res w =
         (extend (deliveries (_apiVersion this) done res) (net w) w, r).
Proof.
  unfold profile_callback, deliveries.
  destruct (truthy (res_err res)); [rewrite call_run; eauto|].
  unfold try_catch, mbind at 1 2, M_bind at 1 2, lift, mbind, result_bind.
  destruct (JSON_parse (res_body res)) as [json|e]; [|rewrite call_run; eauto].
  destruct (normalize _ _ json) as [p|e]; [|rewrite call_run; eauto].
  rewrite call_run. destruct (done None (Some p)) as [e|]; [|eauto].
  rewrite call_run, extend_extend. simpl. eauto.
Qed.

Lemma send_run oauth2 req (k : response → M ()) w :
  send transport oauth2 req k w =
    k (transport oauth2 req (net w)).2
      (extend [Sent req; Received (transport oauth2 req (net w)).2]
         (transport oauth2 req (net w)).1 w).
Proof. unfold send, extend. by destruct (transport _ _ _). Qed.

Lemma userProfile_inv this accessToken done w w' r :
  userProfile buildAuthHeader transport this accessToken done w = (w', r) →
  (w' = w ∧ r = Ok ()
    ∧ strict_eq_str (_apiVersion this) "1" = false
    ∧ strict_eq_str (_apiVersion this) "2" = false) ∨
  ∃ req res,
    (transport (_oauth2 this) req (net w)).2 = res ∧
    new_events w w' =
      Sent req :: Received res :: deliveries (_apiVersion this) done res ∧
    (strict_eq_str (_apiVersion this) "1" = true ∧
       req = OAuth2Get "https://api.dropbox.com/1/account/info" accessToken
     ∨ strict_eq_str (_apiVersion this) "1" = false ∧
       strict_eq_str (_apiVersion this) "2" = true ∧
       req = OAuth2Request "POST"
               "https://api.dropboxapi.com/2/users/get_current_account"
               {[ "Authorization" := buildAuthHeader (_oauth2 this) accessToken ]}
               "null" accessToken).
Proof.
  unfold userProfile, _retrieveUserProfile.
  destruct (strict_eq_str (_apiVersion this) "1") eqn:E1;
    [|destruct (strict_eq_str (_apiVersion this) "2") eqn:E2].
  3: { intros [= <- <-]. by left. }
  all: rewrite send_run;
    match goal with |- context [profile_callback ?t ?d ?a ?x] =>
      destruct (profile_callback_run t d a x) as [r' ->] end;
    rewrite extend_extend; intros [= <- <-]; right; eexists _, _;
    rewrite new_events_extend; split_and!; [done|done|auto].
Qed.

End Properties.

(** ** The constructor *)

(** *** Filling in the settings *)

Lemma lookup_fill d k (o : gmap string value) :
  fill d k o !! k = Some (if truthy (setting o k) then setting o k else setting d k).
Proof. unfold fill. by rewrite lookup_insert_eq. Qed.

Lemma lookup_fill_ne d k k' (o : gmap string value) : k ≠ k' → fill d k o !! k' = o !! k'.
Proof. intros. unfold fill. by rewrite lookup_insert_ne. Qed.

Lemma setting_fill_ne d k k' o : k ≠ k' → setting (fill d k o) k' = setting o k'.
Proof. intros. unfold setting. by rewrite lookup_fill_ne. Qed.

Lemma lookup_resolved d (o : gmap string value) k :
  k ∈ settings →
  resolved d o !! k = Some (if truthy (setting o k) then setting o k else setting d k).
Proof.
  unfold settings, resolved. rewrite !elem_of_cons, elem_of_nil.
  intros [->|[->|[->|[->|[]]]]];
    rewrite ?lookup_fill_ne by done; rewrite lookup_fill;
    by rewrite ?setting_fill_ne by done.
Qed.

Lemma setting_resolved d o k :
  k ∈ settings →
  setting (resolved d o) k = if truthy (setting o k) then setting o k else setting d k.
Proof. intros Hk. unfold setting at 1. by rewrite lookup_resolved. Qed.

Lemma lookup_resolved_ne d (o : gmap string value) k :
  k ∉ settings → resolved d o !! k = o !! k.
Proof.
  unfold settings, resolved. rewrite !not_elem_of_cons. intros (?&?&?&?&_).
  by rewrite !lookup_fill_ne.
Qed.

Lemma defaults_truthy v k :
  accepted v → k ∈ settings → truthy (setting (defaults_for v) k) = true.
Proof.
  intros (s & Hs & Hsup & _)%accepted_key. unfold defaults_for. rewrite Hs.
  unfold settings. rewrite !elem_of_cons, elem_of_nil.
  destruct Hsup as [-> | ->]; intros [->|[->|[->|[->|[]]]]]; by vm_compute.
Qed.

Lemma defaults_unset v :
  not_nullish v = false →
  defaults_for v = default ∅ (defaultOptionsByApiVersion !! "1").
Proof. by destruct v. Qed.

Section Constructor.

Context {callback OAuth2 network : Type}.
Variable OAuth2Strategy : gmap string value → callback → result OAuth2.

Implicit Types (w : @world network) (o : gmap string value) (v : value).

(** Without options the constructor works on a fresh, empty object. *)
Lemma Strategy_without_options verify w :
  Strategy OAuth2Strategy None verify w =
    Strategy OAuth2Strategy (Some (fresh (dom (heap w)))) verify
      (with_object (fresh (dom (heap w))) ∅ w).
Proof. reflexivity. Qed.


(** C5: with [apiVersion] unset and none of the four settings overridden,
    the options the constructor resolves, which it hands to the inherited
    constructor, carry the defaults of version 1, and the instance is of
    version ["1"]. *)
Theorem Strategy_resolves_v1_defaults l o verify w :
  heap w !! l = Some o →
  not_nullish (setting o "apiVersion") = false →
  (∀ k, k ∈ settings → setting o k = VUndef) →
  ∃ o',
    Strategy OAuth2Strategy (Some l) verify w =
      (with_object l o' w,
       oauth2 ← OAuth2Strategy o' verify;
       Ok {| _apiVersion := VStr "1"; _oauth2 := oauth2; name := "dropbox-oauth2" |}) ∧
    o' !! "authorizationURL" = Some (VStr "https://www.dropbox.com/1/oauth2/authorize") ∧
    o' !! "tokenURL" = Some (VStr "https://api.dropbox.com/1/oauth2/token") ∧
    o' !! "scopeSeparator" = Some (VStr ",") ∧
    o' !! "customHeaders" = Some (VObj ∅) ∧
    (∀ k, k ∉ settings → o' !! k = o !! k).
Proof.
  intros Ho Hv Hunset.
  exists (resolved (defaults_for (setting o "apiVersion")) o).
  rewrite (Strategy_run _ _ _ _ _ Ho) by (by left).
  assert (version_in_force (setting o "apiVersion") = VStr "1") as ->
    by (by destruct (setting o "apiVersion")).
  rewrite (defaults_unset _ Hv).
  split; [done|].
  split_and!;
    [rewrite lookup_resolved, Hunset by (unfold settings; repeat constructor); done..|].
  intros k Hk'. by apply lookup_resolved_ne.
Qed.

(** C10: on every options bag it lets through, the constructor writes to the
    caller's own object: afterwards the heap differs from the one before in
    that object alone, whose four settings hold what they held when that was
    truthy and the default of the version in force otherwise, and whose other
    properties are as they were.  No object is created.  So the caller's
    object has changed whenever a setting was unset or falsy, and that
    whether the inherited constructor then accepts the options or throws. *)
Theorem Strategy_mutates_options l o verify w :
  heap w !! l = Some o →
  accepted (setting o "apiVersion") →
  ∃ o',
    heap (Strategy OAuth2Strategy (Some l) verify w).1 = <[l := o']> (heap w) ∧
    dom (heap (Strategy OAuth2Strategy (Some l) verify w).1) = dom (heap w) ∧
    (∀ k, k ∈ settings →
       setting o' k =
         if truthy (setting o k) then setting o k
         else setting (defaults_for (setting o "apiVersion")) k) ∧
    (∀ k, k ∉ settings → o' !! k = o !! k) ∧
    ((∃ k, k ∈ settings ∧ truthy (setting o k) = false) → o' ≠ o).
Proof.
  intros Ho Hacc.
  exists (resolved (defaults_for (setting o "apiVersion")) o).
  rewrite (Strategy_run _ _ _ _ _ Ho Hacc). simpl.
  split_and!; [done| | |..].
  - by apply dom_insert_lookup_L.
  - apply setting_resolved.
  - apply lookup_resolved_ne.
  - intros (k & Hk & Hfalsy) Heq.
    pose proof (setting_resolved (defaults_for (setting o "apiVersion")) o k Hk) as E.
    rewrite Heq, Hfalsy in E.
    pose proof (defaults_truthy _ k Hacc Hk) as T. congruence.
Qed.

End Constructor.


(** ** The profile fetcher *)

(** *** What [done] is called with *)

Lemma deliveries_called v done res ev :
  ev ∈ deliveries v done res → ∃ err p, ev = Called err p.
Proof.
  unfold deliveries. repeat case_match; rewrite ?elem_of_cons, elem_of_nil;
    intros H'; repeat destruct H' as [->|H']; eauto; done.
Qed.

Lemma requests_deliveries v done res : requests (deliveries v done res) = [].
Proof. unfold deliveries. by repeat case_match. Qed.

(** A call that carries a profile carries no error, and the profile is the
    one [normalize] made of the parsed body of an answer without error. *)
Lemma deliveries_profile v done res err p :
  Called err (Some p) ∈ deliveries v done res →
  err = None ∧ truthy (res_err res) = false ∧
  ∃ json, JSON_parse (res_body res) = Ok json ∧ normalize v (res_body res) json = Ok p.
Proof.
  unfold deliveries. destruct (truthy (res_err res)).
  { rewrite list_elem_of_singleton. by intros [=]. }
  destruct (JSON_parse (res_body res)) as [json|e]; simpl.
  2: { rewrite list_elem_of_singleton. by intros [=]. }
  destruct (normalize v (res_body res) json) as [p'|e] eqn:E.
  2: { rewrite list_elem_of_singleton. by intros [=]. }
  destruct (done None (Some p')); rewrite ?elem_of_cons, elem_of_nil;
    intros H'; repeat destruct H' as [[=]|H']; subst; eauto; done.
Qed.

Lemma normalize_invariants v body json p :
  strict_eq_str v "1" = true ∨ strict_eq_str v "2" = true →
  normalize v body json = Ok p →
  Profile.provider p = "dropbox" ∧
  (∃ n, Profile.name p = Some n ∧ Name.middleName n = "") ∧
  (∃ email, prop (Some json) "email" = Ok email ∧
            Profile.emails p = Some [ {| Email.value := email |} ]) ∧
  Profile._raw p = body ∧ Profile._json p = json.
Proof.
  unfold normalize. intros Hv.
  destruct (strict_eq_str v "1"); [|destruct (strict_eq_str v "2")];
    [| |by destruct Hv].
  all: destruct (prop (Some json) "email") as [email|] eqn:Hemail;
    repeat match goal with
      | |- context [mbind _ ?m] => destruct m; simpl; [|done]
      end;
    [intros [= <-]; simpl; eauto 10 | done].
Qed.

Lemma normalize_v1_sample :
  JSON_parse Sample.v1_body ≫= normalize (VStr "1") Sample.v1_body = Ok Sample.v1_profile.
Proof. vm_compute. reflexivity. Qed.

Lemma normalize_v2_sample :
  JSON_parse Sample.v2_body ≫= normalize (VStr "2") Sample.v2_body = Ok Sample.v2_profile.
Proof. vm_compute. reflexivity. Qed.

Lemma strict_eq_str_true v s : strict_eq_str v s = true ↔ v = VStr s.
Proof.
  destruct v as [| | | | |t| |]; simpl; try (split; [done|intros [=]]).
  destruct (String.eqb_spec t s) as [->|N]; split; try done.
  intros [= ->]. done.
Qed.

Section Fetcher.

Context {OAuth2 network : Type}.
Variable buildAuthHeader : OAuth2 → string → string.
Variable transport : OAuth2 → request → network → network * response.

Implicit Types (w : @world network) (v : value).
Implicit Types (this : @strategy OAuth2) (done : completion) (res : response).

(** A run in which the client called back with [res]. *)
Lemma userProfile_received this accessToken done w w' r res :
  userProfile buildAuthHeader transport this accessToken done w = (w', r) →
  Received res ∈ new_events w w' →
  (strict_eq_str (_apiVersion this) "1" = true ∨
   strict_eq_str (_apiVersion this) "2" = true) ∧
  ∃ req, new_events w w' =
           Sent req :: Received res :: deliveries (_apiVersion this) done res.
Proof.
  intros [(-> & _)|(req & res' & _ & E & Hv)]%userProfile_inv.
  { rewrite new_events_same, elem_of_nil. done. }
  rewrite E, !elem_of_cons. intros [[=]|[[= ->]|(? & ? & [=])%deliveries_called]].
  split; [|eauto]. destruct Hv as [[? _]|(_ & ? & _)]; auto.
Qed.

(** A run in which [done] was called. *)
Lemma userProfile_called this accessToken done w w' r err p :
  userProfile buildAuthHeader transport this accessToken done w = (w', r) →
  Called err p ∈ new_events w w' →
  (strict_eq_str (_apiVersion this) "1" = true ∨
   strict_eq_str (_apiVersion this) "2" = true) ∧
  ∃ res, Received res ∈ new_events w w' ∧
         Called err p ∈ deliveries (_apiVersion this) done res.
Proof.
  intros [(-> & _)|(req & res' & _ & E & Hv)]%userProfile_inv.
  { rewrite new_events_same, elem_of_nil. done. }
  rewrite E, !elem_of_cons. intros [[=]|[[=]|Hin]].
  split; [destruct Hv as [[? _]|(_ & ? & _)]; auto|].
  exists res'. rewrite !elem_of_cons. eauto.
Qed.

(** When the instance holds one of the two version strings and [done]
    returns, [done] is called once, with an error or with a profile. *)
Lemma userProfile_calls_back_once this accessToken done w :
  _apiVersion this = VStr "1" ∨ _apiVersion this = VStr "2" →
  (∀ err p, done err p = None) →
  ∃ err p, calls (new_events w (userProfile buildAuthHeader transport this accessToken done w).1) = [(err, p)]
           ∧ (is_Some err ↔ p = None).
Proof.
  intros Hv Hdone.
  destruct (userProfile buildAuthHeader transport this accessToken done w) as [w' r] eqn:E.
  simpl.
  apply userProfile_inv in E as [(_ & _ & H1 & H2)|(req & res & _ & -> & _)].
  { destruct Hv as [Hv|Hv]; rewrite Hv in *; done. }
  simpl. unfold deliveries.
  destruct (truthy (res_err res)); simpl; [eexists _, _; split; [done|]; by eauto|].
  destruct (_ ≫= _) as [p|e]; simpl.
  - rewrite Hdone. simpl. eexists _, _; split; [done|].
    split; [by intros [? [=]]|done].
  - eexists _, _; split; [done|]. by eauto.
Qed.

(** An instance whose [_apiVersion] is not one of the two strings sends
    nothing and never calls [done]. *)
Lemma userProfile_silent this accessToken done w :
  strict_eq_str (_apiVersion this) "1" = false →
  strict_eq_str (_apiVersion this) "2" = false →
  userProfile buildAuthHeader transport this accessToken done w = (w, Ok ()).
Proof. intros H1 H2. unfold userProfile, _retrieveUserProfile. by rewrite H1, H2. Qed.

(** C3: an instance of version ["1"] whose client calls back without an error
    and with the sample account of version 1 calls [done] with no error and
    the profile [Sample.v1_profile]: provider, id, display name, name and
    e-mail as the specification lists them, with the body and the parsed
    payload attached.  That is the first call of [done], and the only one when
    [done] returns. *)
Theorem userProfile_v1_sample this accessToken done w w' r res :
  _apiVersion this = VStr "1" →
  userProfile buildAuthHeader transport this accessToken done w = (w', r) →
  Received res ∈ new_events w w' →
  truthy (res_err res) = false →
  res_body res = Sample.v1_body →
  head (calls (new_events w w')) = Some (None, Some Sample.v1_profile) ∧
  (done None (Some Sample.v1_profile) = None →
   calls (new_events w w') = [(None, Some Sample.v1_profile)]).
Proof.
  intros Hv Hrun Hrec Herr Hbody.
  destruct (userProfile_received _ _ _ _ _ _ _ Hrun Hrec) as (_ & req & ->).
  simpl. unfold deliveries. rewrite Herr, Hbody, Hv, normalize_v1_sample.
  destruct (done None (Some Sample.v1_profile)); simpl; split; done.
Qed.

(** C4: an instance of version ["2"] whose client calls back without an error
    and with the sample account of version 2 calls [done] first with no error
    and a profile whose id is [acc1], whose display name is [A B], whose name
    is family name [B], given name [A] and an empty middle name, and whose
    e-mails are the one address [a@b.com]. *)
Theorem userProfile_v2_sample this accessToken done w w' r res :
  _apiVersion this = VStr "2" →
  userProfile buildAuthHeader transport this accessToken done w = (w', r) →
  Received res ∈ new_events w w' →
  truthy (res_err res) = false →
  res_body res = Sample.v2_body →
  ∃ p,
    head (calls (new_events w w')) = Some (None, Some p) ∧
    Profile.id p = Some (JStr "acc1") ∧
    Profile.displayName p = Some (JStr "A B") ∧
    Profile.name p = Some {| Name.familyName := Some (JStr "B");
                             Name.givenName := Some (JStr "A");
                             Name.middleName := "" |} ∧
    Profile.emails p = Some [ {| Email.value := Some (JStr "a@b.com") |} ].
Proof.
  intros Hv Hrun Hrec Herr Hbody.
  destruct (userProfile_received _ _ _ _ _ _ _ Hrun Hrec) as (_ & req & ->).
  exists Sample.v2_profile.
  simpl. unfold deliveries. rewrite Herr, Hbody, Hv, normalize_v2_sample.
  destruct (done None (Some Sample.v2_profile)); simpl; split_and!; done.
Qed.

(** C6: an instance of version ["2"] sends one request, whatever the access
    token: a POST to the current-account endpoint whose body is the string
    [null] and whose headers are the Authorization header that the client's
    [buildAuthHeader] makes of the token. *)
Theorem userProfile_v2_request this accessToken done w :
  _apiVersion this = VStr "2" →
  requests (new_events w (userProfile buildAuthHeader transport this accessToken done w).1) =
    [OAuth2Request "POST" "https://api.dropboxapi.com/2/users/get_current_account"
       {[ "Authorization" := buildAuthHeader (_oauth2 this) accessToken ]}
       "null" accessToken]
  ∧ String.length "null" = 4.
Proof.
  intros Hv. split; [|done].
  destruct (userProfile buildAuthHeader transport this accessToken done w) as [w' r] eqn:E.
  simpl.
  apply userProfile_inv in E as [(_ & _ & _ & H2)|(req & res & _ & -> & Hreq)].
  { rewrite Hv in H2. done. }
  simpl. rewrite requests_deliveries.
  destruct Hreq as [[H1 _]|(_ & _ & ->)]; [|done]. rewrite Hv in H1. done.
Qed.

(** C7: when the client calls back with an error, [done] is called once, with
    the wrapped error that carries the message and the client's error, and
    that whatever the body is, so the body plays no part; when it calls back
    without an error and the body is not JSON, [done] is called once, with the
    exception of [JSON.parse] itself, a [SyntaxError] and not a wrapped
    error. *)
Theorem userProfile_errors this accessToken done w w' r res :
  userProfile buildAuthHeader transport this accessToken done w = (w', r) →
  Received res ∈ new_events w w' →
  (truthy (res_err res) = true →
   calls (new_events w w') =
     [(Some (InternalOAuthError "failed to fetch user profile" (res_err res)), None)]) ∧
  (truthy (res_err res) = false →
   ∀ e, JSON_parse (res_body res) = Throw e →
        calls (new_events w w') = [(Some e, None)] ∧
        e = SyntaxError ∧
        ∀ message cause, e ≠ InternalOAuthError message cause).
Proof.
  intros Hrun Hrec.
  destruct (userProfile_received _ _ _ _ _ _ _ Hrun Hrec) as (_ & req & ->).
  simpl. unfold deliveries. split.
  - by intros ->.
  - intros -> e He. rewrite He. simpl. split; [done|].
    apply JSON_parse_throws in He as ->. done.
Qed.

(** C8: for an instance of version ["1"] or ["2"], every profile that [done]
    is called with has the provider [dropbox], a name whose middle name is the
    empty string, and as e-mails the one-element list of the [email] of the
    payload. *)
Theorem normalized_profile_invariants this accessToken done w w' r err p :
  _apiVersion this = VStr "1" ∨ _apiVersion this = VStr "2" →
  userProfile buildAuthHeader transport this accessToken done w = (w', r) →
  Called err (Some p) ∈ new_events w w' →
  Profile.provider p = "dropbox" ∧
  (∃ n, Profile.name p = Some n ∧ Name.middleName n = "") ∧
  (∃ email, prop (Some (Profile._json p)) "email" = Ok email ∧
            Profile.emails p = Some [ {| Email.value := email |} ]).
Proof.
  intros Hv Hrun Hcall.
  destruct (userProfile_called _ _ _ _ _ _ _ _ Hrun Hcall) as (_ & res & _ & Hin).
  apply deliveries_profile in Hin as (_ & _ & json & _ & Hn).
  apply normalize_invariants in Hn as (? & ? & ? & _ & ->); [done|].
  rewrite !strict_eq_str_true. done.
Qed.


End Fetcher.

(** ** The samples, run *)

(** C1, at the input on which it fails: the number 1 passes the
    constructor's check, which compares its [toString()], and stays a number
    in [_apiVersion]; [userProfile], which compares with [===], then sends
    nothing and never calls [done], whatever the token and the callback. *)
Theorem userProfile_numeric_apiVersion_never_calls_back :
  ∃ this w1,
    Strategy Sample.accept (Some Sample.caller) ()
      (Sample.world_with {[ "apiVersion" := VNum 1 ]}) = (w1, Ok this) ∧
    _apiVersion this = VNum 1 ∧
    ∀ accessToken done,
      userProfile Sample.bearer (Sample.answering (Sample.success Sample.v1_body))
        this accessToken done w1 = (w1, Ok ()).
Proof.
  eexists _, _. split; [vm_compute; reflexivity|]. split; [reflexivity|].
  intros accessToken done. by apply userProfile_silent.
Qed.

(** Whatever the collaborators, an instance the constructor returns holds the
    version in force as it was given, uncoerced.  With [userProfile_silent],
    every value the constructor lets through that is not one of the two
    strings, such as the number 2 or an array holding ['1'], leaves [done]
    uncalled. *)
Lemma Strategy_keeps_apiVersion {callback OAuth2 network}
    (OAuth2Strategy : gmap string value → callback → result OAuth2)
    l o verify (w w' : @world network) this :
  heap w !! l = Some o →
  Strategy OAuth2Strategy (Some l) verify w = (w', Ok this) →
  accepted (setting o "apiVersion") ∧
  _apiVersion this = version_in_force (setting o "apiVersion").
Proof.
  intros Ho Hrun.
  assert (accepted (setting o "apiVersion")) as Hacc.
  { destruct (not_nullish (setting o "apiVersion")) eqn:Hn; [|by left].
    destruct (toString (setting o "apiVersion")) as [s|e] eqn:Hs.
    - destruct (String.eqb_spec s "1") as [->|N1]; [right; eauto|].
      destruct (String.eqb_spec s "2") as [->|N2]; [right; eauto|].
      rewrite (Strategy_turns_away _ _ _ _ _ (Error unsupported_message) Ho Hn)
        in Hrun; [done|].
      rewrite Hs. simpl. unfold indexOf_is_minus1, supportedApiVersions. simpl.
      destruct (String.eqb_spec s "1"); [done|]. by destruct (String.eqb_spec s "2").
    - rewrite (Strategy_turns_away _ _ _ _ _ e Ho Hn) in Hrun; [done|].
      by rewrite Hs. }
  split; [done|]. rewrite (Strategy_run _ _ _ _ _ Ho Hacc) in Hrun.
  destruct (OAuth2Strategy _ _); simpl in Hrun; inversion Hrun; done.
Qed.

(** When [done] throws at the profile, it is called a second time, with what
    it threw. *)
Example userProfile_calls_back_twice :
  calls (new_events (Sample.world_with ∅)
           (userProfile Sample.bearer (Sample.answering (Sample.success Sample.v1_body))
              (Sample.instance (VStr "1")) "token" Sample.throwing_on_success
              (Sample.world_with ∅)).1)
  = [(None, Some Sample.v1_profile); (Some (Error "verify failed"), None)].
Proof. vm_compute. reflexivity. Qed.

(** The two sample bodies parse to the payloads written out above, and a
    body that is not JSON reaches [done] as the [SyntaxError] it raised. *)
Example JSON_parse_samples :
  JSON_parse Sample.v1_body = Ok Sample.v1_payload ∧
  JSON_parse Sample.v2_body = Ok Sample.v2_payload.
Proof. split; vm_compute; reflexivity. Qed.

Example userProfile_malformed_body :
  calls (new_events (Sample.world_with ∅)
           (Sample.fetch (VStr "2") (Sample.success "<html>Bad gateway</html>")
              (Sample.world_with ∅)).1)
  = [(Some SyntaxError, None)].
Proof. vm_compute. reflexivity. Qed.

(** A payload of the other version lacks the object the names are read from:
    the read throws, and [done] gets the [TypeError]. *)
Example userProfile_wrong_schema :
  calls (new_events (Sample.world_with ∅)
           (Sample.fetch (VStr "2") (Sample.success Sample.v1_body)
              (Sample.world_with ∅)).1)
  = [(Some TypeError, None)].
Proof. vm_compute. reflexivity. Qed.

(** Values the constructor turns away, and values it lets through. *)
Example unsupported_apiVersions :
  Forall (λ v, (Strategy Sample.accept (Some Sample.caller) ()
                  (Sample.world_with {[ "apiVersion" := v ]})).2
               = Throw (Error unsupported_message))
    [VStr "3"; VStr "v2"; VStr ""; VStr " 1"; VNum 0; VNum 3; VNaN; VBool false;
     VBool true; VArr []; VArr [VNum 1; VNum 2]; VObj ∅].
Proof. repeat constructor. Qed.

Example supported_apiVersions :
  Forall (λ v, ∃ this,
            (Strategy Sample.accept (Some Sample.caller) ()
               (Sample.world_with {[ "apiVersion" := v ]})).2 = Ok this)
    [VUndef; VNull; VStr "1"; VStr "2"; VNum 1; VNum 2; VArr [VStr "1"]; VArr [VArr [VNum 2]]].
Proof. repeat constructor; by eexists. Qed.

(** ** The theorems at the samples *)


Lemma Strategy_resolves_v1_defaults_witness :
  ∃ o',
    Strategy Sample.accept (Some Sample.caller) ()
      (Sample.world_with {[ "clientID" := VStr "key" ]}) =
      (with_object Sample.caller o' (Sample.world_with {[ "clientID" := VStr "key" ]}),
       oauth2 ← Sample.accept o' ();
       Ok {| _apiVersion := VStr "1"; _oauth2 := oauth2; name := "dropbox-oauth2" |}) ∧
    o' !! "authorizationURL" = Some (VStr "https://www.dropbox.com/1/oauth2/authorize") ∧
    o' !! "tokenURL" = Some (VStr "https://api.dropbox.com/1/oauth2/token") ∧
    o' !! "scopeSeparator" = Some (VStr ",") ∧
    o' !! "customHeaders" = Some (VObj ∅) ∧
    (∀ k, k ∉ settings → o' !! k = ({[ "clientID" := VStr "key" ]} : gmap string value) !! k).
Proof.
  apply (Strategy_resolves_v1_defaults Sample.accept Sample.caller
           {[ "clientID" := VStr "key" ]} () _);
    [reflexivity | reflexivity |].
  intros k. unfold settings. rewrite !elem_of_cons, elem_of_nil.
  intros [->|[->|[->|[->|[]]]]]; reflexivity.
Defined.

Lemma Strategy_mutates_options_witness :
  ∃ o',
    heap (Strategy Sample.accept (Some Sample.caller) ()
            (Sample.world_with {[ "apiVersion" := VStr "2"; "tokenURL" := VStr "" ]})).1
      = <[Sample.caller := o']>
          (heap (Sample.world_with {[ "apiVersion" := VStr "2"; "tokenURL" := VStr "" ]})) ∧
    dom (heap (Strategy Sample.accept (Some Sample.caller) ()
            (Sample.world_with {[ "apiVersion" := VStr "2"; "tokenURL" := VStr "" ]})).1)
      = dom (heap (Sample.world_with {[ "apiVersion" := VStr "2"; "tokenURL" := VStr "" ]})) ∧
    (∀ k, k ∈ settings →
       setting o' k =
         if truthy (setting {[ "apiVersion" := VStr "2"; "tokenURL" := VStr "" ]} k)
         then setting {[ "apiVersion" := VStr "2"; "tokenURL" := VStr "" ]} k
         else setting (defaults_for
                (setting {[ "apiVersion" := VStr "2"; "tokenURL" := VStr "" ]} "apiVersion")) k) ∧
    (∀ k, k ∉ settings →
       o' !! k = ({[ "apiVersion" := VStr "2"; "tokenURL" := VStr "" ]} : gmap string value) !! k) ∧
    ((∃ k, k ∈ settings ∧
        truthy (setting {[ "apiVersion" := VStr "2"; "tokenURL" := VStr "" ]} k) = false) →
     o' ≠ {[ "apiVersion" := VStr "2"; "tokenURL" := VStr "" ]}).
Proof.
  apply (Strategy_mutates_options Sample.accept Sample.caller
           {[ "apiVersion" := VStr "2"; "tokenURL" := VStr "" ]} () _);
    [reflexivity|].
  right. exists "2". split; [reflexivity | by right].
Defined.

Lemma userProfile_v1_sample_witness :
  head (calls (new_events (Sample.world_with ∅)
                 (Sample.fetch (VStr "1") (Sample.success Sample.v1_body)
                    (Sample.world_with ∅)).1))
    = Some (None, Some Sample.v1_profile) ∧
  (Sample.returning None (Some Sample.v1_profile) = None →
   calls (new_events (Sample.world_with ∅)
            (Sample.fetch (VStr "1") (Sample.success Sample.v1_body)
               (Sample.world_with ∅)).1)
     = [(None, Some Sample.v1_profile)]).
Proof.
  apply (userProfile_v1_sample Sample.bearer
           (Sample.answering (Sample.success Sample.v1_body))
           (Sample.instance (VStr "1")) "token" Sample.returning (Sample.world_with ∅)
           _ (Sample.fetch (VStr "1") (Sample.success Sample.v1_body)
                (Sample.world_with ∅)).2
           (Sample.success Sample.v1_body)).
  - reflexivity.
  - apply surjective_pairing.
  - vm_compute. apply list_elem_of_further, list_elem_of_here.
  - reflexivity.
  - reflexivity.
Defined.

Lemma userProfile_v2_sample_witness :
  ∃ p,
    head (calls (new_events (Sample.world_with ∅)
                   (Sample.fetch (VStr "2") (Sample.success Sample.v2_body)
                      (Sample.world_with ∅)).1))
      = Some (None, Some p) ∧
    Profile.id p = Some (JStr "acc1") ∧
    Profile.displayName p = Some (JStr "A B") ∧
    Profile.name p = Some {| Name.familyName := Some (JStr "B");
                             Name.givenName := Some (JStr "A");
                             Name.middleName := "" |} ∧
    Profile.emails p = Some [ {| Email.value := Some (JStr "a@b.com") |} ].
Proof.
  apply (userProfile_v2_sample Sample.bearer
           (Sample.answering (Sample.success Sample.v2_body))
           (Sample.instance (VStr "2")) "token" Sample.returning (Sample.world_with ∅)
           _ (Sample.fetch (VStr "2") (Sample.success Sample.v2_body)
                (Sample.world_with ∅)).2
           (Sample.success Sample.v2_body)).
  - reflexivity.
  - apply surjective_pairing.
  - vm_compute. apply list_elem_of_further, list_elem_of_here.
  - reflexivity.
  - reflexivity.
Defined.

Lemma userProfile_v2_request_witness :
  requests (new_events (Sample.world_with ∅)
              (Sample.fetch (VStr "2") (Sample.success Sample.v2_body)
                 (Sample.world_with ∅)).1)
    = [OAuth2Request "POST" "https://api.dropboxapi.com/2/users/get_current_account"
         {[ "Authorization" := "Bearer token" ]} "null" "token"]
  ∧ String.length "null" = 4.
Proof.
  apply (userProfile_v2_request Sample.bearer
           (Sample.answering (Sample.success Sample.v2_body))
           (Sample.instance (VStr "2")) "token" Sample.returning (Sample.world_with ∅)).
  reflexivity.
Defined.

Lemma userProfile_errors_witness :
  (truthy (res_err Sample.failure) = true →
   calls (new_events (Sample.world_with ∅)
            (Sample.fetch (VStr "1") Sample.failure (Sample.world_with ∅)).1)
     = [(Some (InternalOAuthError "failed to fetch user profile" (res_err Sample.failure)),
         None)]) ∧
  (truthy (res_err Sample.failure) = false →
   ∀ e, JSON_parse (res_body Sample.failure) = Throw e →
        calls (new_events (Sample.world_with ∅)
                 (Sample.fetch (VStr "1") Sample.failure (Sample.world_with ∅)).1)
          = [(Some e, None)] ∧
        e = SyntaxError ∧
        ∀ message cause, e ≠ InternalOAuthError message cause).
Proof.
  apply (userProfile_errors Sample.bearer (Sample.answering Sample.failure)
           (Sample.instance (VStr "1")) "token" Sample.returning (Sample.world_with ∅)
           _ (Sample.fetch (VStr "1") Sample.failure (Sample.world_with ∅)).2
           Sample.failure).
  - apply surjective_pairing.
  - vm_compute. apply list_elem_of_further, list_elem_of_here.
Defined.

Lemma normalized_profile_invariants_witness :
  Profile.provider Sample.v2_profile = "dropbox" ∧
  (∃ n, Profile.name Sample.v2_profile = Some n ∧ Name.middleName n = "") ∧
  (∃ email, prop (Some (Profile._json Sample.v2_profile)) "email" = Ok email ∧
            Profile.emails Sample.v2_profile = Some [ {| Email.value := email |} ]).
Proof.
  apply (normalized_profile_invariants Sample.bearer
           (Sample.answering (Sample.success Sample.v2_body))
           (Sample.instance (VStr "2")) "token" Sample.returning (Sample.world_with ∅)
           (Sample.fetch (VStr "2") (Sample.success Sample.v2_body)
                (Sample.world_with ∅)).1
           (Sample.fetch (VStr "2") (Sample.success Sample.v2_body)
                (Sample.world_with ∅)).2
           None Sample.v2_profile).
  - right. reflexivity.
  - apply surjective_pairing.
  - vm_compute. apply list_elem_of_further, list_elem_of_further, list_elem_of_here.
Defined.


(** * Further properties of the constructor *)

(** The check of line 65, outside the monad. *)
Lemma check_cases v :
  accepted v ∨
  not_nullish v = true ∧
  ∃ e, (s ← toString v;
        if indexOf_is_minus1 supportedApiVersions s
        then Throw (Error unsupported_message) else Ok ()) = Throw e.
Proof.
  destruct (not_nullish v) eqn:Hn; [|by left; left].
  destruct (toString v) as [s|e] eqn:Hs; [|right; simpl; eauto].
  destruct (String.eqb_spec s "1") as [->|N1]; [left; right; eauto|].
  destruct (String.eqb_spec s "2") as [->|N2]; [left; right; eauto|].
  right. split; [done|]. exists (Error unsupported_message). simpl.
  unfold indexOf_is_minus1, supportedApiVersions. simpl.
  destruct (String.eqb_spec s "1"); [done|]. by destruct (String.eqb_spec s "2").
Qed.

Lemma falsy_toString v :
  not_nullish v = true → truthy v = false →
  ∃ s, toString v = Ok s ∧ s ≠ "1" ∧ s ≠ "2".
Proof.
  destruct v as [| |b|n| |t|xs|fields]; simpl; try done; intros _ Hf.
  - subst b. by exists "false".
  - apply negb_false_iff, Z.eqb_eq in Hf as ->. by exists "0".
  - by exists "NaN".
  - destruct t; [|done]. by exists "".
Qed.

(** Every setting of resolved options is truthy, so resolving again changes
    nothing. *)
Lemma resolved_truthy d o k :
  (∀ k, k ∈ settings → truthy (setting d k) = true) →
  k ∈ settings → truthy (setting (resolved d o) k) = true.
Proof.
  intros Hd Hk. rewrite setting_resolved by done.
  destruct (truthy (setting o k)) eqn:E; [done|]. by apply Hd.
Qed.

Lemma fill_id d k (o : gmap string value) :
  is_Some (o !! k) → truthy (setting o k) = true → fill d k o = o.
Proof.
  intros [x Hx] Ht. unfold fill. rewrite Ht. apply insert_id.
  unfold setting. by rewrite Hx.
Qed.

Lemma resolved_id d (o : gmap string value) :
  (∀ k, k ∈ settings → is_Some (o !! k) ∧ truthy (setting o k) = true) →
  resolved d o = o.
Proof.
  intros H. unfold resolved.
  rewrite (fill_id d "authorizationURL") by (apply H; unfold settings; repeat constructor).
  rewrite (fill_id d "tokenURL") by (apply H; unfold settings; repeat constructor).
  rewrite (fill_id d "scopeSeparator") by (apply H; unfold settings; repeat constructor).
  by rewrite (fill_id d "customHeaders") by (apply H; unfold settings; repeat constructor).
Qed.

Lemma resolved_resolved d (o : gmap string value) :
  (∀ k, k ∈ settings → truthy (setting d k) = true) →
  resolved d (resolved d o) = resolved d o.
Proof.
  intros Hd. apply resolved_id. intros k Hk. split.
  - rewrite lookup_resolved by done. eauto.
  - by apply resolved_truthy.
Qed.

Lemma setting_resolved_apiVersion d o :
  setting (resolved d o) "apiVersion" = setting o "apiVersion".
Proof.
  unfold setting. rewrite lookup_resolved_ne; [done|].
  unfold settings. rewrite !not_elem_of_cons. split_and!; try done. apply not_elem_of_nil.
Qed.

Lemma defaults_v2 v :
  toString v = Ok "2" →
  defaults_for v = default ∅ (defaultOptionsByApiVersion !! "2").
Proof.
  intros Hs. unfold defaults_for, version_in_force.
  rewrite (toString_supported_truthy v "2" Hs) by auto.
  by rewrite (toString_ToString _ _ Hs).
Qed.

Section ConstructorMore.

Context {callback OAuth2 network : Type}.
Variable OAuth2Strategy : gmap string value → callback → result OAuth2.

Implicit Types (w : @world network) (o : gmap string value) (v : value).

(** X1: with an [apiVersion] whose [toString()] is ["2"] and none of the four
    settings overridden, the options handed to the inherited constructor
    carry the defaults of version 2: the endpoints without a version segment,
    the comma separator and the JSON content type as only custom header.  The
    instance keeps the [apiVersion] as it was given. *)
Theorem Strategy_resolves_v2_defaults l o verify w :
  heap w !! l = Some o →
  toString (setting o "apiVersion") = Ok "2" →
  (∀ k, k ∈ settings → setting o k = VUndef) →
  ∃ o',
    Strategy OAuth2Strategy (Some l) verify w =
      (with_object l o' w,
       oauth2 ← OAuth2Strategy o' verify;
       Ok {| _apiVersion := setting o "apiVersion"; _oauth2 := oauth2;
             name := "dropbox-oauth2" |}) ∧
    o' !! "authorizationURL" = Some (VStr "https://www.dropbox.com/oauth2/authorize") ∧
    o' !! "tokenURL" = Some (VStr "https://api.dropbox.com/oauth2/token") ∧
    o' !! "scopeSeparator" = Some (VStr ",") ∧
    o' !! "customHeaders" = Some (VObj {[ "Content-Type" := VStr "application/json" ]}) ∧
    (∀ k, k ∉ settings → o' !! k = o !! k).
Proof.
  intros Ho Hv Hunset.
  exists (resolved (defaults_for (setting o "apiVersion")) o).
  rewrite (Strategy_run _ _ _ _ _ Ho) by (right; eauto).
  assert (version_in_force (setting o "apiVersion") = setting o "apiVersion") as ->.
  { unfold version_in_force. by rewrite (toString_supported_truthy _ "2" Hv) by auto. }
  rewrite (defaults_v2 _ Hv).
  split; [done|].
  split_and!;
    [rewrite lookup_resolved, Hunset by (unfold settings; repeat constructor); done..|].
  intros k Hk'. by apply lookup_resolved_ne.
Qed.

(** X2: a supplied [apiVersion] that is falsy (the number 0, [NaN], [false]
    or the empty string) is turned away with the configuration error, so the
    fallback to ["1"] of line 69 only ever serves [undefined] and [null]. *)
Theorem Strategy_rejects_falsy_apiVersion l o verify w :
  heap w !! l = Some o →
  not_nullish (setting o "apiVersion") = true →
  truthy (setting o "apiVersion") = false →
  Strategy OAuth2Strategy (Some l) verify w = (w, Throw (Error unsupported_message)).
Proof.
  intros Ho Hn Hf. destruct (falsy_toString _ Hn Hf) as (s & Hs & N1 & N2).
  apply (Strategy_turns_away _ _ _ _ _ _ Ho Hn).
  rewrite Hs. simpl. unfold indexOf_is_minus1, supportedApiVersions. simpl.
  destruct (String.eqb_spec s "1"); [done|]. by destruct (String.eqb_spec s "2").
Qed.

(** X3: when [apiVersion.toString()] itself throws, as it does on an object
    whose own [toString] property is not a function, the constructor throws
    that exception and not the configuration error, before it has written
    anything. *)
Theorem Strategy_toString_failure l o verify w e :
  heap w !! l = Some o →
  not_nullish (setting o "apiVersion") = true →
  toString (setting o "apiVersion") = Throw e →
  Strategy OAuth2Strategy (Some l) verify w = (w, Throw e).
Proof.
  intros Ho Hn He.
  apply (Strategy_turns_away _ _ _ _ _ _ Ho Hn). by rewrite He.
Qed.

(** X4: the constructor causes no traffic: given an options object or none,
    and whether it returns or throws, it has sent no request and called no
    callback, and the network is in the state it was in. *)
Theorem Strategy_is_quiet options verify w :
  (∀ l, options = Some l → is_Some (heap w !! l)) →
  trace (Strategy OAuth2Strategy options verify w).1 = trace w ∧
  net (Strategy OAuth2Strategy options verify w).1 = net w.
Proof.
  assert (∀ l o w0, heap w0 !! l = Some o →
            trace (Strategy OAuth2Strategy (Some l) verify w0).1 = trace w0 ∧
            net (Strategy OAuth2Strategy (Some l) verify w0).1 = net w0) as Hsome.
  { intros l o w0 Ho.
    destruct (check_cases (setting o "apiVersion")) as [Hacc|(Hn & e & He)].
    - by rewrite (Strategy_run _ _ _ _ _ Ho Hacc).
    - by rewrite (Strategy_turns_away _ _ _ _ _ _ Ho Hn He). }
  intros Hobj. destruct options as [l|].
  - destruct (Hobj l eq_refl) as [o Ho]. by apply (Hsome l o).
  - change (Strategy OAuth2Strategy None verify w)
      with (Strategy OAuth2Strategy (Some (fresh (dom (heap w)))) verify
              (with_object (fresh (dom (heap w))) ∅ w)).
    apply (Hsome (fresh (dom (heap w))) ∅ (with_object (fresh (dom (heap w))) ∅ w)).
    simpl. apply lookup_insert_eq.
Qed.

(** X5: when the inherited constructor throws, the constructor throws the
    same exception, and the caller's options have by then been resolved: the
    four writes of lines 71 to 75 are not undone. *)
Theorem Strategy_inherited_failure l o verify w e :
  heap w !! l = Some o →
  accepted (setting o "apiVersion") →
  OAuth2Strategy (resolved (defaults_for (setting o "apiVersion")) o) verify = Throw e →
  Strategy OAuth2Strategy (Some l) verify w =
    (with_object l (resolved (defaults_for (setting o "apiVersion")) o) w, Throw e).
Proof. intros Ho Hacc He. rewrite (Strategy_run _ _ _ _ _ Ho Hacc). by rewrite He. Qed.

(** X6: an instance the constructor returns is named [dropbox-oauth2], holds
    the client the inherited constructor made of the resolved options, and
    holds as [_apiVersion] the value it was given, or ["1"] when it was given
    none. *)
Theorem Strategy_instance l o verify w w' this :
  heap w !! l = Some o →
  Strategy OAuth2Strategy (Some l) verify w = (w', Ok this) →
  name this = "dropbox-oauth2" ∧
  OAuth2Strategy (resolved (defaults_for (setting o "apiVersion")) o) verify
    = Ok (_oauth2 this) ∧
  _apiVersion this =
    (if not_nullish (setting o "apiVersion") then setting o "apiVersion" else VStr "1").
Proof.
  intros Ho Hrun.
  destruct (check_cases (setting o "apiVersion")) as [Hacc|(Hn & e & He)].
  2: { by rewrite (Strategy_turns_away _ _ _ _ _ _ Ho Hn He) in Hrun. }
  rewrite (Strategy_run _ _ _ _ _ Ho Hacc) in Hrun.
  destruct (OAuth2Strategy _ _) as [oauth2|e]; simpl in Hrun; inversion Hrun; subst.
  simpl. split_and!; [done..|].
  destruct Hacc as [Hn|(s & Hs & Hsup)].
  - rewrite Hn. by destruct (setting o "apiVersion").
  - unfold version_in_force. rewrite (toString_supported_truthy _ _ Hs Hsup).
    by destruct (setting o "apiVersion").
Qed.

(** X7: constructing a second strategy from the options object a first
    construction has resolved writes nothing new: the heap is as the first
    construction left it. *)
Theorem Strategy_twice l o verify verify' w :
  heap w !! l = Some o →
  accepted (setting o "apiVersion") →
  heap (Strategy OAuth2Strategy (Some l) verify'
          (Strategy OAuth2Strategy (Some l) verify w).1).1
  = heap (Strategy OAuth2Strategy (Some l) verify w).1.
Proof.
  intros Ho Hacc. rewrite (Strategy_run _ _ _ _ _ Ho Hacc). simpl.
  set (d := defaults_for (setting o "apiVersion")).
  assert (heap (with_object l (resolved d o) w) !! l = Some (resolved d o)) as Ho'
    by (simpl; apply lookup_insert_eq).
  rewrite (Strategy_run _ _ _ _ _ Ho')
    by (by rewrite setting_resolved_apiVersion).
  simpl. rewrite setting_resolved_apiVersion. fold d.
  rewrite resolved_resolved; [by rewrite insert_insert_eq|].
  intros k Hk. by apply defaults_truthy.
Qed.

(** X8: called without options, the constructor makes an object of its own:
    every object of the caller is as it was, the new object holds the four
    defaults of version 1 and nothing else, and the instance is of version
    ["1"]. *)
Theorem Strategy_without_options_is_private verify w :
  ∃ o',
    Strategy OAuth2Strategy None verify w =
      (with_object (fresh (dom (heap w))) o' w,
       oauth2 ← OAuth2Strategy o' verify;
       Ok {| _apiVersion := VStr "1"; _oauth2 := oauth2; name := "dropbox-oauth2" |}) ∧
    o' = default ∅ (defaultOptionsByApiVersion !! "1") ∧
    heap w !! fresh (dom (heap w)) = None ∧
    ∀ l, is_Some (heap w !! l) →
         heap (Strategy OAuth2Strategy None verify w).1 !! l = heap w !! l.
Proof.
  set (l := fresh (dom (heap w))).
  assert (heap w !! l = None) as Hfresh.
  { apply not_elem_of_dom. apply is_fresh. }
  assert (Strategy OAuth2Strategy None verify w =
    (with_object l (resolved (default ∅ (defaultOptionsByApiVersion !! "1")) ∅) w,
     oauth2 ← OAuth2Strategy
                (resolved (default ∅ (defaultOptionsByApiVersion !! "1")) ∅) verify;
     Ok {| _apiVersion := VStr "1"; _oauth2 := oauth2; name := "dropbox-oauth2" |}))
    as Hrun.
  { change (Strategy OAuth2Strategy None verify w)
      with (Strategy OAuth2Strategy (Some l) verify (with_object l ∅ w)).
    rewrite (Strategy_run _ l ∅) by (by simpl; rewrite ?lookup_insert_eq; try left).
    by rewrite with_object_twice. }
  exists (resolved (default ∅ (defaultOptionsByApiVersion !! "1")) ∅).
  split; [done|]. split; [by vm_compute|]. split; [done|].
  intros l' [x Hx]. rewrite Hrun. simpl. rewrite lookup_insert_ne; [done|].
  intros ->. congruence.
Qed.

End ConstructorMore.

(** * Further properties of the profile fetcher *)

Lemma prop_member j k : j ≠ JNull → prop (Some j) k = Ok (member j k).
Proof. by destruct j. Qed.

Lemma prop_null k : prop (Some JNull) k = Throw TypeError.
Proof. done. Qed.

Lemma member_null k : member JNull k = None.
Proof. done. Qed.

(** Normalizing a payload of version 1: the reads of lines 129 to 136. *)
Lemma normalize_v1_ok body json nd :
  member json "name_details" = Some nd → nd ≠ JNull →
  normalize (VStr "1") body json =
    Ok {| Profile.provider := "dropbox";
          Profile.id := member json "uid";
          Profile.displayName := member json "display_name";
          Profile.name := Some {| Name.familyName := member nd "surname";
                                  Name.givenName := member nd "given_name";
                                  Name.middleName := "" |};
          Profile.emails := Some [ {| Email.value := member json "email" |} ];
          Profile._raw := body;
          Profile._json := json |}.
Proof.
  intros Hnd Hnn. assert (json ≠ JNull) as Hj by (by intros ->).
  unfold normalize. cbn [strict_eq_str String.eqb Ascii.eqb Bool.eqb].
  rewrite !(prop_member json) by done. cbn [mbind result_bind]. rewrite Hnd.
  by rewrite !(prop_member nd) by done.
Qed.

Lemma normalize_v1_throws body json :
  member json "name_details" = None ∨ member json "name_details" = Some JNull →
  normalize (VStr "1") body json = Throw TypeError.
Proof.
  intros H. unfold normalize. cbn [strict_eq_str String.eqb Ascii.eqb Bool.eqb].
  destruct json; try done; simpl in *; by destruct H as [-> | ->].
Qed.

Lemma normalize_v2_ok body json nm :
  member json "name" = Some nm → nm ≠ JNull →
  normalize (VStr "2") body json =
    Ok {| Profile.provider := "dropbox";
          Profile.id := member json "account_id";
          Profile.displayName := member nm "display_name";
          Profile.name := Some {| Name.familyName := member nm "surname";
                                  Name.givenName := member nm "given_name";
                                  Name.middleName := "" |};
          Profile.emails := Some [ {| Email.value := member json "email" |} ];
          Profile._raw := body;
          Profile._json := json |}.
Proof.
  intros Hnm Hnn. assert (json ≠ JNull) as Hj by (by intros ->).
  unfold normalize. cbn [strict_eq_str String.eqb Ascii.eqb Bool.eqb].
  rewrite !(prop_member json) by done. cbn [mbind result_bind]. rewrite Hnm.
  by rewrite !(prop_member nm) by done.
Qed.

Lemma normalize_v2_throws body json :
  member json "name" = None ∨ member json "name" = Some JNull →
  normalize (VStr "2") body json = Throw TypeError.
Proof.
  intros H. unfold normalize. cbn [strict_eq_str String.eqb Ascii.eqb Bool.eqb].
  destruct json; try done; simpl in *; by destruct H as [-> | ->].
Qed.

Lemma calls_deliveries_last v done res :
  ∀ e, escapes v done res = Throw e →
       ∃ err p, last (calls (deliveries v done res)) = Some (err, p) ∧ done err p = Some e.
Proof.
  intros e. unfold escapes, deliveries, thrown.
  destruct (truthy (res_err res)).
  { destruct (done _ None) eqn:E; intros [= <-]. simpl. eauto. }
  destruct (_ ≫= _) as [p|e'].
  - destruct (done None (Some p)) as [e1|] eqn:E1; [|done].
    destruct (done (Some e1) None) eqn:E2; intros [= <-]. simpl. eauto.
  - destruct (done (Some e') None) eqn:E; intros [= <-]. simpl. eauto.
Qed.

Section FetcherMore.

Context {callback OAuth2 network : Type}.
Variable OAuth2Strategy : gmap string value → callback → result OAuth2.
Variable buildAuthHeader : OAuth2 → string → string.
Variable transport : OAuth2 → request → network → network * response.

Implicit Types (w : @world network) (v : value).
Implicit Types (this : @strategy OAuth2) (done : completion) (res : response).

(** The callback, in full: the calls it makes and what it ends with. *)
Lemma profile_callback_outcome this done res w :
  profile_callback this done res w =
    (extend (deliveries (_apiVersion this) done res) (net w) w,
     escapes (_apiVersion this) done res).
Proof.
  unfold profile_callback, deliveries, escapes, thrown.
  destruct (truthy (res_err res)); [by rewrite call_run|].
  unfold try_catch, mbind at 1 2, M_bind at 1 2, lift, mbind, result_bind.
  destruct (JSON_parse (res_body res)) as [json|e]; [|by rewrite call_run].
  destruct (normalize _ _ json) as [p|e]; [|by rewrite call_run].
  rewrite call_run. destruct (done None (Some p)) as [e|]; [|done].
  by rewrite call_run, extend_extend.
Qed.

(** A run of [userProfile], in full. *)
Lemma userProfile_outcome this accessToken done w w' r :
  userProfile buildAuthHeader transport this accessToken done w = (w', r) →
  (w' = w ∧ r = Ok ()) ∨
  ∃ req res,
    w' = extend (Sent req :: Received res :: deliveries (_apiVersion this) done res)
           (transport (_oauth2 this) req (net w)).1 w ∧
    r = escapes (_apiVersion this) done res.
Proof.
  unfold userProfile, _retrieveUserProfile.
  destruct (strict_eq_str (_apiVersion this) "1");
    [|destruct (strict_eq_str (_apiVersion this) "2")].
  3: { intros [= <- <-]. by left. }
  all: rewrite send_run, profile_callback_outcome, extend_extend;
    intros [= <- <-]; right; by eexists _, _.
Qed.

(** X9: an instance of version ["1"] sends one request, whatever the access
    token: a [get] of the account-info endpoint with that token. *)
Theorem userProfile_v1_request this accessToken done w :
  _apiVersion this = VStr "1" →
  requests (new_events w (userProfile buildAuthHeader transport this accessToken done w).1)
  = [OAuth2Get "https://api.dropbox.com/1/account/info" accessToken].
Proof.
  intros Hv.
  destruct (userProfile buildAuthHeader transport this accessToken done w) as [w' r] eqn:E.
  simpl.
  apply userProfile_inv in E as [(_ & _ & H1 & _)|(req & res & _ & -> & Hreq)].
  { rewrite Hv in H1. done. }
  simpl. rewrite requests_deliveries.
  destruct Hreq as [[_ ->]|(H1 & _)]; [done|]. rewrite Hv in H1. done.
Qed.

(** X10: [userProfile] throws nothing of its own: an exception that escapes
    it is one that [done] threw, at the last call made of it.  The errors of
    the transport, of [JSON.parse] and of reading the payload all go to
    [done]. *)
Theorem userProfile_throws_what_done_throws this accessToken done w w' e :
  userProfile buildAuthHeader transport this accessToken done w = (w', Throw e) →
  ∃ err p, last (calls (new_events w w')) = Some (err, p) ∧ done err p = Some e.
Proof.
  intros [(_ & [=])|(req & res & -> & Hr)]%userProfile_outcome.
  rewrite new_events_extend. simpl. by apply calls_deliveries_last.
Qed.

(** X11: when [done] throws at the profile it is handed, the [catch] of line
    153 calls it a second time, with what it threw; [userProfile] then ends
    as that second call does. *)
Theorem userProfile_done_throws_at_profile this accessToken done w w' r p e :
  userProfile buildAuthHeader transport this accessToken done w = (w', r) →
  Called None (Some p) ∈ new_events w w' →
  done None (Some p) = Some e →
  calls (new_events w w') = [(None, Some p); (Some e, None)] ∧
  r = thrown (done (Some e) None).
Proof.
  intros Hrun Hin He.
  apply userProfile_outcome in Hrun as [(-> & _)|(req & res & -> & ->)].
  { rewrite new_events_same in Hin. by apply elem_of_nil in Hin. }
  rewrite new_events_extend in *. rewrite !elem_of_cons in Hin.
  destruct Hin as [[=]|[[=]|Hin]].
  apply deliveries_profile in Hin as (_ & Hf & json & Hj & Hn).
  simpl. unfold deliveries, escapes. rewrite Hf, Hj. simpl. rewrite Hn, He. done.
Qed.

(** X12: for an instance of version ["1"] and a body that is JSON, a profile
    is delivered exactly when the payload has a [name_details] that is not
    [null].  Its fields are then the properties of the payload, [undefined]
    where the payload has none: a missing [uid], [display_name], [email],
    [surname] or [given_name] is no error.  Otherwise, and so for every
    payload that is not an object, [done] gets the [TypeError] of the failed
    read. *)
Theorem userProfile_v1_payload this accessToken done w w' r res json :
  _apiVersion this = VStr "1" →
  userProfile buildAuthHeader transport this accessToken done w = (w', r) →
  Received res ∈ new_events w w' →
  truthy (res_err res) = false →
  JSON_parse (res_body res) = Ok json →
  (∀ nd, member json "name_details" = Some nd → nd ≠ JNull →
     head (calls (new_events w w')) =
       Some (None,
             Some {| Profile.provider := "dropbox";
                     Profile.id := member json "uid";
                     Profile.displayName := member json "display_name";
                     Profile.name := Some {| Name.familyName := member nd "surname";
                                             Name.givenName := member nd "given_name";
                                             Name.middleName := "" |};
                     Profile.emails := Some [ {| Email.value := member json "email" |} ];
                     Profile._raw := res_body res;
                     Profile._json := json |})) ∧
  (member json "name_details" = None ∨ member json "name_details" = Some JNull →
   calls (new_events w w') = [(Some TypeError, None)]).
Proof.
  intros Hv Hrun Hrec Herr Hj.
  destruct (userProfile_received _ _ _ _ _ _ _ _ _ Hrun Hrec) as (_ & req & ->).
  simpl. unfold deliveries. rewrite Herr, Hj, Hv. simpl. split.
  - intros nd Hnd Hnn. rewrite (normalize_v1_ok _ _ _ Hnd Hnn).
    by destruct (done None _).
  - intros H. by rewrite (normalize_v1_throws _ _ H).
Qed.

(** X13: the same for version ["2"], where the names are read from the
    [name] of the payload: a profile is delivered exactly when the payload
    has a [name] that is not [null]. *)
Theorem userProfile_v2_payload this accessToken done w w' r res json :
  _apiVersion this = VStr "2" →
  userProfile buildAuthHeader transport this accessToken done w = (w', r) →
  Received res ∈ new_events w w' →
  truthy (res_err res) = false →
  JSON_parse (res_body res) = Ok json →
  (∀ nm, member json "name" = Some nm → nm ≠ JNull →
     head (calls (new_events w w')) =
       Some (None,
             Some {| Profile.provider := "dropbox";
                     Profile.id := member json "account_id";
                     Profile.displayName := member nm "display_name";
                     Profile.name := Some {| Name.familyName := member nm "surname";
                                             Name.givenName := member nm "given_name";
                                             Name.middleName := "" |};
                     Profile.emails := Some [ {| Email.value := member json "email" |} ];
                     Profile._raw := res_body res;
                     Profile._json := json |})) ∧
  (member json "name" = None ∨ member json "name" = Some JNull →
   calls (new_events w w') = [(Some TypeError, None)]).
Proof.
  intros Hv Hrun Hrec Herr Hj.
  destruct (userProfile_received _ _ _ _ _ _ _ _ _ Hrun Hrec) as (_ & req & ->).
  simpl. unfold deliveries. rewrite Herr, Hj, Hv. simpl. split.
  - intros nm Hnm Hnn. rewrite (normalize_v2_ok _ _ _ Hnm Hnn).
    by destruct (done None _).
  - intros H. by rewrite (normalize_v2_throws _ _ H).
Qed.

(** X14: every profile handed to [done] carries the body the client called
    back with as [_raw] and what that body parses to as [_json], so parsing
    [_raw] again gives [_json]. *)
Theorem profile_raw_parses_to_json this accessToken done w w' r err p :
  userProfile buildAuthHeader transport this accessToken done w = (w', r) →
  Called err (Some p) ∈ new_events w w' →
  JSON_parse (Profile._raw p) = Ok (Profile._json p) ∧
  ∃ res, Received res ∈ new_events w w' ∧ Profile._raw p = res_body res.
Proof.
  intros Hrun Hcall.
  destruct (userProfile_called _ _ _ _ _ _ _ _ _ _ Hrun Hcall) as (Hv & res & Hrec & Hin).
  apply deliveries_profile in Hin as (_ & _ & json & Hj & Hn).
  apply normalize_invariants in Hn as (_ & _ & _ & -> & ->); [|done].
  split; [done|]. eauto.
Qed.

(** X15: construction and fetch together.  The request [userProfile] sends
    on an instance the constructor returned is decided by the [apiVersion] of
    the options: the [get] of version 1 when it is unset or the string
    ["1"], the POST of version 2 when it is the string ["2"], and none at all
    for any other value the constructor let through. *)
Theorem Strategy_then_userProfile l o verify accessToken done w w' this :
  heap w !! l = Some o →
  Strategy OAuth2Strategy (Some l) verify w = (w', Ok this) →
  requests (new_events w'
              (userProfile buildAuthHeader transport this accessToken done w').1)
  = if negb (not_nullish (setting o "apiVersion"))
       || strict_eq_str (setting o "apiVersion") "1"
    then [OAuth2Get "https://api.dropbox.com/1/account/info" accessToken]
    else if strict_eq_str (setting o "apiVersion") "2"
    then [OAuth2Request "POST" "https://api.dropboxapi.com/2/users/get_current_account"
            {[ "Authorization" := buildAuthHeader (_oauth2 this) accessToken ]}
            "null" accessToken]
    else [].
Proof.
  intros Ho Hrun.
  destruct (Strategy_keeps_apiVersion _ _ _ _ _ _ _ Ho Hrun) as [Hacc Hv].
  assert (_apiVersion this =
          if not_nullish (setting o "apiVersion") then setting o "apiVersion"
          else VStr "1") as Hv'.
  { rewrite Hv. unfold version_in_force. destruct Hacc as [Hn|(s & Hs & Hsup)].
    - rewrite Hn. by destruct (setting o "apiVersion").
    - rewrite (toString_supported_truthy _ _ Hs Hsup).
      by destruct (setting o "apiVersion"). }
  assert (strict_eq_str (_apiVersion this) "1"
          = negb (not_nullish (setting o "apiVersion"))
            || strict_eq_str (setting o "apiVersion") "1") as E1.
  { rewrite Hv'. by destruct (not_nullish (setting o "apiVersion")). }
  assert (strict_eq_str (_apiVersion this) "1" = false →
          strict_eq_str (_apiVersion this) "2"
          = strict_eq_str (setting o "apiVersion") "2") as E2.
  { rewrite Hv'. by destruct (not_nullish (setting o "apiVersion")). }
  rewrite <-E1.
  destruct (userProfile buildAuthHeader transport this accessToken done w')
    as [w'' r] eqn:E.
  simpl.
  apply userProfile_inv in E as [(-> & _ & H1 & H2)|(req & res & _ & -> & Hreq)].
  { rewrite new_events_same, H1. rewrite <-(E2 H1), H2. done. }
  simpl. rewrite requests_deliveries.
  destruct Hreq as [[H1 ->]|(H1 & H2 & ->)]; rewrite H1; [done|].
  by rewrite <-(E2 H1), H2.
Qed.

(** X16: [userProfile] writes to no object and sends at most one request. *)
Theorem userProfile_frame this accessToken done w :
  heap (userProfile buildAuthHeader transport this accessToken done w).1 = heap w ∧
  List.length
    (requests (new_events w
                 (userProfile buildAuthHeader transport this accessToken done w).1)) ≤ 1.
Proof.
  destruct (userProfile buildAuthHeader transport this accessToken done w) as [w' r] eqn:E.
  simpl.
  apply userProfile_outcome in E as [(-> & _)|(req & res & -> & _)].
  { rewrite new_events_same. simpl. split; [done|lia]. }
  rewrite new_events_extend. simpl. rewrite requests_deliveries. done.
Qed.

End FetcherMore.

Section FetcherOnce.

Context {OAuth2 network : Type}.
Variable buildAuthHeader : OAuth2 → string → string.
Variable transport : OAuth2 → request → network → network * response.

Implicit Types (w : @world network) (v : value).
Implicit Types (this : @strategy OAuth2) (done : completion) (res : response).

(** X17: on an instance that holds one of the two version strings, and with a
    [done] that returns, [userProfile] returns, having called [done] exactly
    once: with an error and no profile, or with a profile and no error. *)
Theorem userProfile_once_when_done_returns this accessToken done w :
  _apiVersion this = VStr "1" ∨ _apiVersion this = VStr "2" →
  (∀ err p, done err p = None) →
  (userProfile buildAuthHeader transport this accessToken done w).2 = Ok () ∧
  ∃ err p,
    calls (new_events w (userProfile buildAuthHeader transport this accessToken done w).1)
      = [(err, p)] ∧
    (is_Some err ↔ p = None).
Proof.
  intros Hv Hdone.
  destruct (userProfile buildAuthHeader transport this accessToken done w) as [w' r] eqn:E.
  simpl.
  assert (∃ req res,
            w' = extend (Sent req :: Received res
                           :: deliveries (_apiVersion this) done res)
                   (transport (_oauth2 this) req (net w)).1 w ∧
            r = escapes (_apiVersion this) done res) as (req & res & -> & ->).
  { revert E. unfold userProfile, _retrieveUserProfile.
    assert (strict_eq_str (_apiVersion this) "1" = true ∨
            strict_eq_str (_apiVersion this) "1" = false ∧
            strict_eq_str (_apiVersion this) "2" = true) as [H1|[H1 H2]]
      by (destruct Hv as [Hv|Hv]; rewrite Hv; auto).
    all: rewrite H1, ?H2, send_run, profile_callback_outcome, extend_extend;
      intros [= <- <-]; by eexists _, _. }
  rewrite new_events_extend. simpl. unfold escapes, deliveries, thrown.
  destruct (truthy (res_err res)); simpl.
  { rewrite Hdone. split; [done|]. eexists _, _. split; [done|]. by eauto. }
  destruct (_ ≫= _) as [p|e]; rewrite !Hdone; (split; [done|]); simpl.
  - eexists _, _. split; [done|]. split; [by intros [? [=]]|done].
  - eexists _, _. split; [done|]. by eauto.
Qed.

End FetcherOnce.

(** ** The further properties at the samples *)

Lemma Strategy_resolves_v2_defaults_witness :
  ∃ o',
    Strategy Sample.accept (Some Sample.caller) ()
      (Sample.world_with {[ "apiVersion" := VNum 2 ]}) =
      (with_object Sample.caller o' (Sample.world_with {[ "apiVersion" := VNum 2 ]}),
       oauth2 ← Sample.accept o' ();
       Ok {| _apiVersion := setting {[ "apiVersion" := VNum 2 ]} "apiVersion";
             _oauth2 := oauth2; name := "dropbox-oauth2" |}) ∧
    o' !! "authorizationURL" = Some (VStr "https://www.dropbox.com/oauth2/authorize") ∧
    o' !! "tokenURL" = Some (VStr "https://api.dropbox.com/oauth2/token") ∧
    o' !! "scopeSeparator" = Some (VStr ",") ∧
    o' !! "customHeaders" = Some (VObj {[ "Content-Type" := VStr "application/json" ]}) ∧
    (∀ k, k ∉ settings → o' !! k = ({[ "apiVersion" := VNum 2 ]} : gmap string value) !! k).
Proof.
  apply (Strategy_resolves_v2_defaults Sample.accept Sample.caller
           {[ "apiVersion" := VNum 2 ]} () _);
    [reflexivity | reflexivity |].
  intros k. unfold settings. rewrite !elem_of_cons, elem_of_nil.
  intros [->|[->|[->|[->|[]]]]]; reflexivity.
Defined.

Lemma Strategy_rejects_falsy_apiVersion_witness :
  Strategy Sample.accept (Some Sample.caller) ()
    (Sample.world_with {[ "apiVersion" := VNum 0 ]})
  = (Sample.world_with {[ "apiVersion" := VNum 0 ]}, Throw (Error unsupported_message)).
Proof.
  apply (Strategy_rejects_falsy_apiVersion Sample.accept Sample.caller
           {[ "apiVersion" := VNum 0 ]} () _);
    reflexivity.
Defined.

Lemma Strategy_toString_failure_witness :
  Strategy Sample.accept (Some Sample.caller) ()
    (Sample.world_with {[ "apiVersion" := VObj {[ "toString" := VNull ]} ]})
  = (Sample.world_with {[ "apiVersion" := VObj {[ "toString" := VNull ]} ]},
     Throw TypeError).
Proof.
  apply (Strategy_toString_failure Sample.accept Sample.caller
           {[ "apiVersion" := VObj {[ "toString" := VNull ]} ]} () _ TypeError);
    reflexivity.
Defined.

Lemma Strategy_is_quiet_witness :
  trace (Strategy Sample.accept (Some Sample.caller) ()
           (Sample.world_with {[ "apiVersion" := VStr "2" ]})).1
    = trace (Sample.world_with {[ "apiVersion" := VStr "2" ]}) ∧
  net (Strategy Sample.accept (Some Sample.caller) ()
         (Sample.world_with {[ "apiVersion" := VStr "2" ]})).1
    = net (Sample.world_with {[ "apiVersion" := VStr "2" ]}).
Proof.
  apply (Strategy_is_quiet Sample.accept (Some Sample.caller) ()
           (Sample.world_with {[ "apiVersion" := VStr "2" ]})).
  intros l [= <-]. eexists. reflexivity.
Defined.

Lemma Strategy_inherited_failure_witness :
  Strategy Sample.refuse (Some Sample.caller) () (Sample.world_with ∅)
  = (with_object Sample.caller
       (resolved (defaults_for (setting ∅ "apiVersion")) ∅) (Sample.world_with ∅),
     Throw TypeError).
Proof.
  apply (Strategy_inherited_failure Sample.refuse Sample.caller ∅ () _ TypeError);
    [reflexivity | by left | reflexivity].
Defined.

Lemma Strategy_instance_witness :
  name (Sample.instance (VNum 2)) = "dropbox-oauth2" ∧
  Sample.accept
    (resolved (defaults_for (setting {[ "apiVersion" := VNum 2 ]} "apiVersion"))
       {[ "apiVersion" := VNum 2 ]}) ()
    = Ok (_oauth2 (Sample.instance (VNum 2))) ∧
  _apiVersion (Sample.instance (VNum 2)) =
    (if not_nullish (setting {[ "apiVersion" := VNum 2 ]} "apiVersion")
     then setting {[ "apiVersion" := VNum 2 ]} "apiVersion" else VStr "1").
Proof.
  apply (Strategy_instance Sample.accept Sample.caller {[ "apiVersion" := VNum 2 ]} ()
           (Sample.world_with {[ "apiVersion" := VNum 2 ]})
           (Strategy Sample.accept (Some Sample.caller) ()
              (Sample.world_with {[ "apiVersion" := VNum 2 ]})).1);
    [reflexivity | vm_compute; reflexivity].
Defined.

Lemma Strategy_twice_witness :
  heap (Strategy Sample.accept (Some Sample.caller) ()
          (Strategy Sample.accept (Some Sample.caller) () (Sample.world_with ∅)).1).1
  = heap (Strategy Sample.accept (Some Sample.caller) () (Sample.world_with ∅)).1.
Proof.
  apply (Strategy_twice Sample.accept Sample.caller ∅ () () (Sample.world_with ∅));
    [reflexivity | by left].
Defined.

Lemma userProfile_v1_request_witness :
  requests (new_events (Sample.world_with ∅)
              (Sample.fetch (VStr "1") (Sample.success Sample.v1_body)
                 (Sample.world_with ∅)).1)
  = [OAuth2Get "https://api.dropbox.com/1/account/info" "token"].
Proof.
  apply (userProfile_v1_request Sample.bearer
           (Sample.answering (Sample.success Sample.v1_body))
           (Sample.instance (VStr "1")) "token" Sample.returning (Sample.world_with ∅)).
  reflexivity.
Defined.

Lemma userProfile_throws_what_done_throws_witness :
  ∃ err p,
    last (calls (new_events (Sample.world_with ∅)
                   (userProfile Sample.bearer (Sample.answering Sample.failure)
                      (Sample.instance (VStr "1")) "token" Sample.throwing
                      (Sample.world_with ∅)).1))
      = Some (err, p) ∧
    Sample.throwing err p = Some (Error "verify failed").
Proof.
  apply (userProfile_throws_what_done_throws Sample.bearer
           (Sample.answering Sample.failure)
           (Sample.instance (VStr "1")) "token" Sample.throwing (Sample.world_with ∅)).
  vm_compute. reflexivity.
Defined.

Lemma userProfile_done_throws_at_profile_witness :
  calls (new_events (Sample.world_with ∅)
           (userProfile Sample.bearer (Sample.answering (Sample.success Sample.v1_body))
              (Sample.instance (VStr "1")) "token" Sample.throwing_on_success
              (Sample.world_with ∅)).1)
    = [(None, Some Sample.v1_profile); (Some (Error "verify failed"), None)] ∧
  (userProfile Sample.bearer (Sample.answering (Sample.success Sample.v1_body))
     (Sample.instance (VStr "1")) "token" Sample.throwing_on_success
     (Sample.world_with ∅)).2
    = thrown (Sample.throwing_on_success (Some (Error "verify failed")) None).
Proof.
  apply (userProfile_done_throws_at_profile Sample.bearer
           (Sample.answering (Sample.success Sample.v1_body))
           (Sample.instance (VStr "1")) "token" Sample.throwing_on_success
           (Sample.world_with ∅)).
  - apply surjective_pairing.
  - vm_compute. apply list_elem_of_further, list_elem_of_further, list_elem_of_here.
  - reflexivity.
Defined.

Lemma userProfile_v1_payload_witness :
  (∀ nd, member Sample.v1_payload "name_details" = Some nd → nd ≠ JNull →
     head (calls (new_events (Sample.world_with ∅)
                    (Sample.fetch (VStr "1") (Sample.success Sample.v1_body)
                       (Sample.world_with ∅)).1)) =
       Some (None,
             Some {| Profile.provider := "dropbox";
                     Profile.id := member Sample.v1_payload "uid";
                     Profile.displayName := member Sample.v1_payload "display_name";
                     Profile.name := Some {| Name.familyName := member nd "surname";
                                             Name.givenName := member nd "given_name";
                                             Name.middleName := "" |};
                     Profile.emails :=
                       Some [ {| Email.value := member Sample.v1_payload "email" |} ];
                     Profile._raw := res_body (Sample.success Sample.v1_body);
                     Profile._json := Sample.v1_payload |})) ∧
  (member Sample.v1_payload "name_details" = None
   ∨ member Sample.v1_payload "name_details" = Some JNull →
   calls (new_events (Sample.world_with ∅)
            (Sample.fetch (VStr "1") (Sample.success Sample.v1_body)
               (Sample.world_with ∅)).1)
   = [(Some TypeError, None)]).
Proof.
  apply (userProfile_v1_payload Sample.bearer
           (Sample.answering (Sample.success Sample.v1_body))
           (Sample.instance (VStr "1")) "token" Sample.returning (Sample.world_with ∅)
           _ (Sample.fetch (VStr "1") (Sample.success Sample.v1_body)
                (Sample.world_with ∅)).2
           (Sample.success Sample.v1_body) Sample.v1_payload).
  - reflexivity.
  - apply surjective_pairing.
  - vm_compute. apply list_elem_of_further, list_elem_of_here.
  - reflexivity.
  - vm_compute. reflexivity.
Defined.

Lemma userProfile_v2_payload_witness :
  (∀ nm, member Sample.v2_payload "name" = Some nm → nm ≠ JNull →
     head (calls (new_events (Sample.world_with ∅)
                    (Sample.fetch (VStr "2") (Sample.success Sample.v2_body)
                       (Sample.world_with ∅)).1)) =
       Some (None,
             Some {| Profile.provider := "dropbox";
                     Profile.id := member Sample.v2_payload "account_id";
                     Profile.displayName := member nm "display_name";
                     Profile.name := Some {| Name.familyName := member nm "surname";
                                             Name.givenName := member nm "given_name";
                                             Name.middleName := "" |};
                     Profile.emails :=
                       Some [ {| Email.value := member Sample.v2_payload "email" |} ];
                     Profile._raw := res_body (Sample.success Sample.v2_body);
                     Profile._json := Sample.v2_payload |})) ∧
  (member Sample.v2_payload "name" = None
   ∨ member Sample.v2_payload "name" = Some JNull →
   calls (new_events (Sample.world_with ∅)
            (Sample.fetch (VStr "2") (Sample.success Sample.v2_body)
               (Sample.world_with ∅)).1)
   = [(Some TypeError, None)]).
Proof.
  apply (userProfile_v2_payload Sample.bearer
           (Sample.answering (Sample.success Sample.v2_body))
           (Sample.instance (VStr "2")) "token" Sample.returning (Sample.world_with ∅)
           _ (Sample.fetch (VStr "2") (Sample.success Sample.v2_body)
                (Sample.world_with ∅)).2
           (Sample.success Sample.v2_body) Sample.v2_payload).
  - reflexivity.
  - apply surjective_pairing.
  - vm_compute. apply list_elem_of_further, list_elem_of_here.
  - reflexivity.
  - vm_compute. reflexivity.
Defined.

Lemma profile_raw_parses_to_json_witness :
  JSON_parse (Profile._raw Sample.v1_profile) = Ok (Profile._json Sample.v1_profile) ∧
  ∃ res,
    Received res ∈ new_events (Sample.world_with ∅)
                     (Sample.fetch (VStr "1") (Sample.success Sample.v1_body)
                        (Sample.world_with ∅)).1 ∧
    Profile._raw Sample.v1_profile = res_body res.
Proof.
  apply (profile_raw_parses_to_json Sample.bearer
           (Sample.answering (Sample.success Sample.v1_body))
           (Sample.instance (VStr "1")) "token" Sample.returning (Sample.world_with ∅)
           _ (Sample.fetch (VStr "1") (Sample.success Sample.v1_body)
                (Sample.world_with ∅)).2
           None Sample.v1_profile).
  - apply surjective_pairing.
  - vm_compute. apply list_elem_of_further, list_elem_of_further, list_elem_of_here.
Defined.

Lemma Strategy_then_userProfile_witness :
  requests
    (new_events
       (Strategy Sample.accept (Some Sample.caller) ()
          (Sample.world_with {[ "apiVersion" := VStr "2" ]})).1
       (userProfile Sample.bearer (Sample.answering (Sample.success Sample.v2_body))
          (Sample.instance (VStr "2")) "token" Sample.returning
          (Strategy Sample.accept (Some Sample.caller) ()
             (Sample.world_with {[ "apiVersion" := VStr "2" ]})).1).1)
  = if negb (not_nullish (setting {[ "apiVersion" := VStr "2" ]} "apiVersion"))
       || strict_eq_str (setting {[ "apiVersion" := VStr "2" ]} "apiVersion") "1"
    then [OAuth2Get "https://api.dropbox.com/1/account/info" "token"]
    else if strict_eq_str (setting {[ "apiVersion" := VStr "2" ]} "apiVersion") "2"
    then [OAuth2Request "POST" "https://api.dropboxapi.com/2/users/get_current_account"
            {[ "Authorization" :=
                 Sample.bearer (_oauth2 (Sample.instance (VStr "2"))) "token" ]}
            "null" "token"]
    else [].
Proof.
  apply (Strategy_then_userProfile Sample.accept Sample.bearer
           (Sample.answering (Sample.success Sample.v2_body))
           Sample.caller {[ "apiVersion" := VStr "2" ]} () "token" Sample.returning
           (Sample.world_with {[ "apiVersion" := VStr "2" ]})).
  - reflexivity.
  - vm_compute. reflexivity.
Defined.


Lemma userProfile_once_when_done_returns_witness :
  (Sample.fetch (VStr "2") Sample.failure (Sample.world_with ∅)).2 = Ok () ∧
  ∃ err p,
    calls (new_events (Sample.world_with ∅)
             (Sample.fetch (VStr "2") Sample.failure (Sample.world_with ∅)).1)
      = [(err, p)] ∧
    (is_Some err ↔ p = None).
Proof.
  apply (userProfile_once_when_done_returns Sample.bearer
           (Sample.answering Sample.failure)
           (Sample.instance (VStr "2")) "token" Sample.returning (Sample.world_with ∅)).
  - right. reflexivity.
  - reflexivity.
Defined.
